(** * PygameCommunityBot: the exec command handler and the text utilities

    A shallow embedding of [src/commands.py] (the [exec] branch of
    [user_command]) and of the utilities of [src/pgbot/utils.py]
    ([clamp], [color_to_rgb_int], [format_discord_link], [progress_bar],
    [format_long_time], [split_long_message], [filter_id],
    [filter_emoji_id], [code_block]).

    A Python [str] is a sequence of Unicode code points, so it is modelled
    as a list of code points ([N]); [len] is [length], [s[i:]] is [drop i s]
    and [s[:i]] is [take i s]. *)

From Stdlib Require Import ZArith NArith QArith List Bool Ascii String DecimalString Lia.
From Stdlib Require DecimalPos.
From stdpp Require Import base list gmap.

Local Open Scope nat_scope.

(** ** Python strings *)

Abbreviation str := (list N).

(** An ASCII literal as a Python string. *)
Definition lit (s : string) : str :=
  map N_of_ascii (list_ascii_of_string s).

Definition NL : N := 10.   (* '\n' *)
Definition SP : N := 32.   (* ' ' *)
Definition BT : N := 96.   (* '`' *)
Definition COLON : N := 58.   (* ':' *)

(** [c in l] for a list of one-character strings. *)
Definition char_in (c : N) (l : list N) : bool := existsb (N.eqb c) l.
Arguments char_in : simpl never.

(** [s.startswith(p)] *)
Fixpoint startswith (p s : str) : bool :=
  match p, s with
  | [], _ => true
  | _ :: _, [] => false
  | a :: p', b :: s' => N.eqb a b && startswith p' s'
  end.

(** [s[:-1]] *)
Definition drop_last (s : str) : str := take (length s - 1) s.

(** [sep.join(l)] *)
Fixpoint join (sep : str) (l : list str) : str :=
  match l with
  | [] => []
  | [x] => x
  | x :: l' => x ++ sep ++ join sep l'
  end.

(** [s.replace(old, new)]: the occurrences of [old] are found from left to
    right and do not overlap.  [skip] counts the characters of a match that
    are still to be passed over.  For an empty [old] Python puts [new]
    before every character and at the end. *)
Fixpoint replace_from (old new : str) (skip : nat) (s : str) : str :=
  match s with
  | [] => []
  | c :: s' =>
      match skip with
      | S k => replace_from old new k s'
      | O =>
          if startswith old s
          then new ++ replace_from old new (length old - 1) s'
          else c :: replace_from old new 0 s'
      end
  end.

Definition replace (old new s : str) : str :=
  match old with
  | [] => new ++ flat_map (fun c => c :: new) s
  | _ :: _ => replace_from old new 0 s
  end.

(** [s.split(sep)] for a one-character separator: never an empty list. *)
Fixpoint split (sep : N) (s : str) : list str :=
  match s with
  | [] => [[]]
  | c :: s' =>
      if N.eqb c sep then [] :: split sep s'
      else match split sep s' with
           | [] => [[c]]
           | w :: ws => (c :: w) :: ws
           end
  end.

(** [s.count(c)] for a one-character string. *)
Definition count (c : N) (s : str) : nat :=
  length (filter (fun x => N.eqb x c = true) s).

(** The three-backtick fence. *)
Definition fence : str := [BT; BT; BT].

(** ** Source normalisation of the exec command ([commands.py], 140-157) *)

Module Normalize.

(** [[' ', '`', '\n']] *)
Definition wrapper_chars : list N := [SP; BT; NL].

(** First loop: [for x in range(len(code))], with [ret = code[x + 1:]]
    while [code[x]] is a wrapper character, and [break] otherwise. *)
Fixpoint strip_head (code : str) (xs : list nat) (ret : str) : str :=
  match xs with
  | [] => ret
  | x :: xs' =>
      match code !! x with
      | Some c =>
          if char_in c wrapper_chars
          then strip_head code xs' (drop (S x) code)
          else ret
      | None => ret
      end
  end.

(** Second loop: [for x in reversed(range(len(code)))], with
    [ret = code[:x]]. *)
Fixpoint strip_tail (code : str) (xs : list nat) (ret : str) : str :=
  match xs with
  | [] => ret
  | x :: xs' =>
      match code !! x with
      | Some c =>
          if char_in c wrapper_chars
          then strip_tail code xs' (take x code)
          else ret
      | None => ret
      end
  end.

(** ["py\n"] *)
Definition py_tag : str := lit "py" ++ [NL].

(** [if ret.startswith('py\n'): ret = ret[3:]] *)
Definition strip_tag (ret : str) : str :=
  if startswith py_tag ret then drop 3 ret else ret.

Definition normalize (code : str) : str :=
  let ret := [] in
  let ret := strip_head code (seq 0 (length code)) ret in
  let code := ret in
  let ret := strip_tail code (rev (seq 0 (length code))) ret in
  strip_tag ret.

(** A fenced snippet as users paste it: two spaces, a [```py] fence, the
    line [print(1)], a closing fence and two spaces. *)
Definition fenced_print : str :=
  lit "  ```py" ++ [NL] ++ lit "print(1)" ++ [NL] ++ lit "```  ".

(** No wrapper character at either end of [body]. *)
Definition clean_ends (body : str) : bool :=
  match head body, last body with
  | Some a, Some b => negb (char_in a wrapper_chars) && negb (char_in b wrapper_chars)
  | _, _ => true
  end.

Definition all_wrapper (s : str) : bool :=
  forallb (fun c => char_in c wrapper_chars) s.

End Normalize.

(** ** Fence neutralisation: [s.replace("```", r)] *)

Definition LRM : N := 8206.    (* '‎' *)
Definition ZWSP : N := 8203.   (* '​' *)

(** The replacement of [commands.py] line 171 (result text). *)
Definition repl_text : str :=
  [LRM; LRM; BT; LRM; BT; LRM; LRM; BT; LRM; LRM; LRM].

(** The replacement of [commands.py] line 181 (exception name and
    arguments). *)
Definition repl_exc : str := [LRM; LRM; BT; LRM; BT; LRM; BT; LRM].

(** The replacement of [utils.code_block]. *)
Definition repl_block : str := [ZWSP; BT; ZWSP; BT; ZWSP; BT; ZWSP].

(** [p in s] for strings: [p] occurs in [s] as a substring. *)
Fixpoint contains (p s : str) : bool :=
  startswith p s || match s with [] => false | _ :: s' => contains p s' end.

(** A scanner for three backticks in a row; [n] is the number of
    backticks that immediately precede [s]. *)
Fixpoint has3 (n : nat) (s : str) : bool :=
  match s with
  | [] => false
  | c :: s' => if N.eqb c BT then (2 <=? n) || has3 (S n) s' else has3 0 s'
  end.

(** The number of backticks [s] starts with. *)
Fixpoint lead (s : str) : nat :=
  match s with
  | [] => 0
  | c :: s' => if N.eqb c BT then S (lead s') else 0
  end.


(** ** Python values, exceptions and the sandbox result *)

(** The values the handler converts with [str(...)]. *)
Inductive pyval :=
| PStr (s : str)
| PInt (z : Z)
| PNone.

(** [str(v)] *)
Definition py_str (v : pyval) : str :=
  match v with
  | PStr s => s
  | PInt z => lit (DecimalString.NilZero.string_of_int (Z.to_int z))
  | PNone => lit "None"
  end.

(** A caught exception: [type(e).__name__] and [e.args]. *)
Record PyExc := { exc_name : str; exc_args : list pyval }.

(** A [pygame.Surface], as far as the handler observes it: the size in
    bytes of the PNG file that [pygame.image.save] writes for it. *)
Record Surface := { png_bytes : N }.

(** What [execSandbox] returns: [img] is [Some] when
    [type(returned.img) is pygame.Surface], [exc] is [Some] when
    [isinstance(returned.exc, BaseException)]. *)
Record SandboxResult := {
  duration : Q;
  text : pyval;
  img : option Surface;
  exc : option PyExc
}.

(** ** Effects: the file system, the channel, and raised exceptions *)

Inductive event :=
| SendFile (name : str)                  (* msg.channel.send(file=discord.File(name)) *)
| SendEmbed (title description : str).   (* sendEmbed(msg.channel, title, description) *)

Record World := { files : gmap str N; sent : list event }.

Inductive outcome (A : Type) :=
| Done (a : A)
| Raised (e : str).
Arguments Done {A} a.
Arguments Raised {A} e.

Definition io (A : Type) : Type := World -> outcome A * World.

#[local] Instance io_ret : MRet io := fun A a w => (Done a, w).
#[local] Instance io_bind : MBind io := fun A B k m w =>
  match m w with
  | (Done a, w') => k a w'
  | (Raised e, w') => (Raised e, w')
  end.

Definition raise {A : Type} (e : str) : io A := fun w => (Raised e, w).

(** The calls that reach outside the process; each may raise. *)
Inductive io_call := Save | Getsize | Send | Embed | Remove.

Definition no_faults (c : io_call) : bool := false.

Module Exec.
Section Handler.

(** [formatTime] and [execSandbox] are imported from modules that are not
    part of the sources at hand; [faults] tells which outside calls raise
    in the run considered. *)
Variable formatTime : Q -> str.
Variable execSandbox : str -> Z -> SandboxResult.
Variable faults : io_call -> bool.

(** [pygame.image.save(surface, name)] *)
Definition image_save (surface : Surface) (name : str) : io unit :=
  fun w =>
    if faults Save then (Raised (lit "pygame.error"), w)
    else (Done tt, {| files := <[name := png_bytes surface]> (files w); sent := sent w |}).

(** [os.path.getsize(name)] *)
Definition getsize (name : str) : io N :=
  fun w =>
    if faults Getsize then (Raised (lit "OSError"), w)
    else match files w !! name with
         | Some n => (Done n, w)
         | None => (Raised (lit "FileNotFoundError"), w)
         end.

(** [await msg.channel.send(file=discord.File(name))] *)
Definition channel_send_file (name : str) : io unit :=
  fun w =>
    match files w !! name with
    | None => (Raised (lit "FileNotFoundError"), w)
    | Some _ =>
        if faults Send then (Raised (lit "HTTPException"), w)
        else (Done tt, {| files := files w; sent := sent w ++ [SendFile name] |})
    end.

(** [await sendEmbed(msg.channel, title, description)] *)
Definition sendEmbed (title description : str) : io unit :=
  fun w =>
    if faults Embed then (Raised (lit "HTTPException"), w)
    else (Done tt, {| files := files w; sent := sent w ++ [SendEmbed title description] |}).

(** [os.remove(name)] *)
Definition os_remove (name : str) : io unit :=
  fun w =>
    if faults Remove then (Raised (lit "OSError"), w)
    else match files w !! name with
         | Some _ => (Done tt, {| files := delete name (files w); sent := sent w |})
         | None => (Raised (lit "FileNotFoundError"), w)
         end.

(** [f'temp{start}.png'], with [start] the text of [time.time()]. *)
Definition temp_name (start : str) : str := lit "temp" ++ start ++ lit ".png".

(** [2**22] *)
Definition ceiling : N := 2 ^ 22.

Definition too_large_title : str := lit "Image cannot be sent".
Definition too_large_body : str := lit "The image file size is >4MiB".
Definition exception_title : str := lit "An exception occured!".

(** [f'Returned text (code executed in {formatTime(duration)}):'] *)
Definition returned_title (d : Q) : str :=
  lit "Returned text (code executed in " ++ formatTime d ++ lit "):".

(** Lines 165-170: the image hand-off. *)
Definition send_image (start : str) (surface : Surface) : io unit :=
  let name := temp_name start in
  image_save surface name ;;
  size ← getsize name ;
  (if (size <? ceiling)%N
   then channel_send_file name
   else sendEmbed too_large_title too_large_body) ;;
  os_remove name.

(** Lines 171-173: [str_repr]. *)
Definition str_repr (t : pyval) : str :=
  let s := replace fence repl_text (py_str t) in
  match s with
  | [] => lit " "
  | _ :: _ => s
  end.

(** Lines 175-178 and 183-186: the description of the embed. *)
Definition framed (s : str) : str :=
  if 2048 <? length s + 7
  then lit "```" ++ [NL] ++ take 2038 s ++ lit " ...```"
  else lit "```" ++ [NL] ++ s ++ lit "```".

(** Line 181: [exp]. *)
Definition exception_line (e : PyExc) : str :=
  replace fence repl_exc (exc_name e)
  ++ lit ": "
  ++ replace fence repl_exc (join (lit ", ") (map py_str (exc_args e))).

(** Lines 163-186: what is done with the sandbox result. *)
Definition render (start : str) (returned : SandboxResult) : io unit :=
  match exc returned with
  | None =>
      match img returned with
      | Some surface => send_image start surface
      | None => mret tt
      end ;;
      sendEmbed (returned_title (duration returned)) (framed (str_repr (text returned)))
  | Some e =>
      sendEmbed exception_title (framed (exception_line e))
  end.

(** Lines 139-186: the [exec] branch of [user_command]. *)
Definition exec_command (content prefix : str) (is_priv : bool) (start : str) : io unit :=
  let code := drop (length prefix + 5) content in
  let ret := Normalize.normalize code in
  let returned := execSandbox ret (if is_priv then 5 else 2)%Z in
  render start returned.

End Handler.

(** The events a run has added to the channel. *)
Definition emitted (w : World) (r : outcome unit * World) : list event :=
  drop (length (sent w)) (sent (snd r)).

Definition is_file (ev : event) : bool :=
  match ev with SendFile _ => true | SendEmbed _ _ => false end.

Definition is_text_embed (ev : event) : bool :=
  match ev with
  | SendFile _ => false
  | SendEmbed t _ => startswith (lit "Returned text") t
  end.

Definition is_exception_embed (ev : event) : bool :=
  match ev with
  | SendFile _ => false
  | SendEmbed t _ => startswith exception_title t
  end.

(** The event of the image hand-off. *)
Definition image_event (start : str) (surface : Surface) : event :=
  if (png_bytes surface <? ceiling)%N
  then SendFile (temp_name start)
  else SendEmbed too_large_title too_large_body.

(** The events of a run in which no outside call raises. *)
Definition quiet_events (formatTime : Q -> str) (start : str)
           (returned : SandboxResult) (w : World) : list event :=
  emitted w (render formatTime no_faults start returned w).

End Exec.

(** A run in which sending the file raises. *)
Definition send_fails (c : io_call) : bool :=
  match c with Send => true | _ => false end.

(** An image of 100 bytes, started at time [1.5], on an empty file system,
    when sending the file raises. *)
(** An image of 5 MiB, started at time [1.5], on an empty file system,
    when no outside call raises. *)
Definition oversize_run : outcome unit * World :=
  Exec.render (fun _ => lit "1 s") no_faults (lit "1.5")
    {| duration := 1; text := PStr (lit "1");
       img := Some {| png_bytes := 5242880 |}; exc := None |}
    {| files := ∅; sent := [] |}.

Definition failing_send_run : outcome unit * World :=
  Exec.render (fun _ => lit "1 s") send_fails (lit "1.5")
    {| duration := 1; text := PStr (lit "1");
       img := Some {| png_bytes := 100 |}; exc := None |}
    {| files := ∅; sent := [] |}.

(** ** [pgbot/utils.py] *)

Module Utils.

(** [s[:k]] for a Python integer [k]: a negative [k] counts from the end. *)
Definition slice_to (s : str) (k : Z) : str :=
  if (k <? 0)%Z
  then take (Z.to_nat (Z.of_nat (length s) + k)) s
  else take (Z.to_nat k) s.

(** [code_block(string, max_characters=2048)] *)
Definition code_block (string : str) (max_characters : Z) : str :=
  let string := replace fence repl_block string in
  let max_characters := (max_characters - 7)%Z in
  if (max_characters <? Z.of_nat (length string))%Z
  then lit "```" ++ [NL] ++ slice_to string (max_characters - 7) ++ lit " ...```"
  else lit "```" ++ [NL] ++ slice_to string max_characters ++ lit "```".

(** The loop of [split_long_message]: [temp] is the chunk being filled,
    [split_output] the chunks already closed. *)
Fixpoint split_loop (lines : list str) (temp : str) (split_output : list str)
  : list str * str :=
  match lines with
  | [] => (split_output, temp)
  | line :: lines' =>
      if 2000 <? length temp + length line + 1
      then split_loop lines' (line ++ [NL]) (split_output ++ [drop_last temp])
      else split_loop lines' (temp ++ line ++ [NL]) split_output
  end.

Definition split_long_message (message : str) : list str :=
  let lines := split NL message in
  let '(split_output, temp) := split_loop lines [] [] in
  match temp with
  | [] => split_output
  | _ :: _ => split_output ++ [temp]
  end.

(** [s * n]: the empty string for a negative [n]. *)
Definition str_mul (s : str) (n : Z) : str := concat (repeat s (Z.to_nat n)).

(** [int(q)]: truncation towards zero. *)
Definition int_of_Q (q : Q) : Z := Z.quot (Qnum q) (Z.pos (Qden q)).

Definition full_bar_default : str := [9608%N].    (* "█" *)
Definition empty_bar_default : str := [9617%N].   (* "░" *)

(** [progress_bar(pct, full_bar, empty_bar, divisions)]; the number [pct]
    is taken as an exact rational. *)
Definition progress_bar (pct : Q) (full_bar empty_bar : str) (divisions : Z) : str :=
  let pct := if Qlt_le_dec pct 0 then 0%Q
             else if Qlt_le_dec 1 pct then 1%Q else pct in
  str_mul full_bar (int_of_Q (inject_Z divisions * pct))
  ++ str_mul empty_bar (divisions - int_of_Q (inject_Z divisions * pct)).

(** *** [int(s)] for a string *)

Definition is_space (c : N) : bool := char_in c [32; 9; 10; 11; 12; 13]%N.

Fixpoint lstrip (s : str) : str :=
  match s with
  | [] => []
  | c :: s' => if is_space c then lstrip s' else s
  end.

Definition strip (s : str) : str := rev (lstrip (rev (lstrip s))).

Definition digit_val (c : N) : option Z :=
  if ((48 <=? c) && (c <=? 57))%N then Some (Z.of_N (c - 48)) else None.

(** Decimal digits, with single underscores allowed between digits. *)
Fixpoint parse_digits (after_digit : bool) (acc : Z) (s : str) : option Z :=
  match s with
  | [] => if after_digit then Some acc else None
  | c :: s' =>
      if N.eqb c 95   (* '_' *)
      then if after_digit then parse_digits false acc s' else None
      else match digit_val c with
           | Some d => parse_digits true (10 * acc + d) s'
           | None => None
           end
  end.

(** [int(s)] on ASCII input: surrounding white space, an optional sign,
    decimal digits.  [None] stands for [ValueError]. *)
Definition py_int (s : str) : option Z :=
  match strip s with
  | 43%N :: t => parse_digits false 0 t                    (* '+' *)
  | 45%N :: t => Z.opp <$> parse_digits false 0 t          (* '-' *)
  | t => parse_digits false 0 t
  end.

(** [l[-1]] of a list of strings ([split] never returns an empty list). *)
Definition last_part (l : list str) : str := default [] (last l).

Definition ValueError : str := lit "ValueError".

(** [filter_emoji_id(name)]: only the second [int] call is inside the
    [try]. *)
Definition filter_emoji_id (name : str) : outcome pyval :=
  if 2 <=? count COLON name
  then
    let emoji_id := drop_last (last_part (split COLON name)) in
    match py_int emoji_id with
    | Some z => Done (PInt z)
    | None => Raised ValueError
    end
  else
    match py_int name with
    | Some z => Done (PInt z)
    | None => Done (PStr name)
    end.

(** The text of a decimal numeral. *)
Definition digit_text (d : Decimal.uint) : str := lit (NilEmpty.string_of_uint d).

(** A line with its newline. *)
Abbreviation with_newline := (fun l : str => l ++ [NL]).

End Utils.

(** ** More of [pgbot/utils.py]: numbers, links, durations, mentions *)

Module Formatting.

(** [clamp(value, min_, max_)] on integers. *)
Definition clamp (value min_ max_ : Z) : Z := Z.max (Z.min value max_) min_.

(** A [pygame.Color]: four components, each a byte. *)
Record Color := { col_r : Z; col_g : Z; col_b : Z; col_a : Z }.

(** [(((col.r << 8) + col.g) << 8) + col.b] *)
Definition color_to_rgb_int (col : Color) : Z :=
  (Z.shiftl (Z.shiftl (col_r col) 8 + col_g col) 8 + col_b col)%Z.

(** An orange with some transparency. *)
Definition orange : Color := {| col_r := 255; col_g := 136; col_b := 0; col_a := 7 |}.

(** [s.lstrip(c)] and [s.rstrip(c)] for a one-character string. *)
Fixpoint lstrip_char (c : N) (s : str) : str :=
  match s with
  | [] => []
  | x :: s' => if N.eqb x c then lstrip_char c s' else s
  end.

Definition rstrip_char (c : N) (s : str) : str := rev (lstrip_char c (rev s)).

(** [f"https://discord.com/channels/{guild_id}/"] and its [www] form. *)
Definition link_prefix (guild_id : Z) : str :=
  lit "https://discord.com/channels/" ++ py_str (PInt guild_id) ++ lit "/".

Definition link_prefix_www (guild_id : Z) : str :=
  lit "https://www.discord.com/channels/" ++ py_str (PInt guild_id) ++ lit "/".

(** [format_discord_link(link, guild_id)] *)
Definition format_discord_link (link : str) (guild_id : Z) : str :=
  let link := rstrip_char 47 (rstrip_char 62 (lstrip_char 60 link)) in
  fold_left
    (fun link prefix =>
       if startswith prefix link then drop (length prefix) link else link)
    [link_prefix guild_id; link_prefix_www guild_id]
    link.

(** The units of [format_long_time], largest first. *)
Definition time_units : list (str * Z) :=
  [(lit "weeks", 604800); (lit "days", 86400); (lit "hours", 3600);
   (lit "minutes", 60); (lit "seconds", 1)]%Z.

Definition is_nil {A : Type} (l : list A) : bool :=
  match l with [] => true | _ :: _ => false end.

(** The loop of [format_long_time]; [//] is floor division. *)
Fixpoint long_time_loop (units : list (str * Z)) (seconds : Z) (result : list str)
  : list str :=
  match units with
  | [] => result
  | (name, count) :: units' =>
      let value := (seconds / count)%Z in
      if negb (value =? 0)%Z || (is_nil result && (count =? 1)%Z)
      then
        let seconds := (seconds - value * count)%Z in
        let name := if (value =? 1)%Z then drop_last name else name in
        long_time_loop units' seconds (result ++ [py_str (PInt value) ++ lit " " ++ name])
      else long_time_loop units' seconds result
  end.

Definition IndexError : str := lit "IndexError".

(** [format_long_time(seconds)]; [result[-1]] raises on an empty list. *)
Definition format_long_time (seconds : Z) : outcome str :=
  let result := long_time_loop time_units seconds [] in
  let preset := join (lit ", ") (take (length result - 1) result) in
  match last result with
  | None => Raised IndexError
  | Some final =>
      match preset with
      | [] => Done final
      | _ :: _ => Done (preset ++ lit " and " ++ final)
      end
  end.

(** How a duration reads: a number and its unit, in the plural unless the
    number is one. *)
Definition amount (value : Z) (unit_name : str) : str :=
  py_str (PInt value) ++ lit " " ++ unit_name ++ (if (value =? 1)%Z then [] else lit "s").

Definition amount_if_any (value : Z) (unit_name : str) : list str :=
  if (value =? 0)%Z then [] else [amount value unit_name].

(** The parts of a duration that are not zero, largest unit first. *)
Definition amounts (w d h m s : Z) : list str :=
  amount_if_any w (lit "week") ++ amount_if_any d (lit "day")
  ++ amount_if_any h (lit "hour") ++ amount_if_any m (lit "minute")
  ++ amount_if_any s (lit "second").

(** "a", "a and b", "a, b and c", ...; "0 seconds" for no part at all. *)
Fixpoint enumeration (parts : list str) : str :=
  match parts with
  | [] => lit "0 seconds"
  | [a] => a
  | [a; b] => a ++ lit " and " ++ b
  | a :: rest => a ++ lit ", " ++ enumeration rest
  end.

(** The closing lines of [format_long_time], for a list of parts. *)
Definition closing (result : list str) : outcome str :=
  match last result with
  | None => Raised IndexError
  | Some final =>
      match join (lit ", ") (take (length result - 1) result) with
      | [] => Done final
      | _ :: _ => Done (join (lit ", ") (take (length result - 1) result)
                        ++ lit " and " ++ final)
      end
  end.

End Formatting.

Module Mentions.

(** [("<", ">", "@", "&", "#", "!", " ")] *)
Definition mention_chars : list N := [60; 62; 64; 38; 35; 33; 32]%N.

(** [filter_id(mention)]: the [int] call is not guarded. *)
Definition filter_id (mention : str) : outcome Z :=
  let mention :=
    fold_left (fun mention char => replace [char] [] mention) mention_chars mention in
  match Utils.py_int mention with
  | Some z => Done z
  | None => Raised Utils.ValueError
  end.

(** Every character of [s] is an ASCII character. *)
Definition is_ascii (s : str) : bool := forallb (fun c => (c <? 128)%N) s.

(** Some character of [s] is a decimal digit. *)
Definition has_digit (s : str) : bool :=
  existsb (fun c => (48 <=? c)%N && (c <=? 57)%N) s.

(** [<:name:id>], the text form of a custom emoji. *)
Definition emoji_text (name : str) (id : Z) : str :=
  lit "<:" ++ name ++ [COLON] ++ py_str (PInt id) ++ lit ">".

(** [<@!id>], the text form of a mention. *)
Definition mention_text (id : Z) : str := lit "<@!" ++ py_str (PInt id) ++ lit ">".

End Mentions.

(** * Properties *)

Section NormalizeFacts.
Import Normalize.

Lemma strip_head_run (rest : str) :
  (forall c, head rest = Some c -> char_in c wrapper_chars = false) ->
  forall pre2 pre1 ret,
    all_wrapper pre2 = true ->
    strip_head (pre1 ++ pre2 ++ rest)
               (seq (length pre1) (length pre2 + length rest)) ret
    = match pre2 with [] => ret | _ :: _ => rest end.
Proof.
  intros Hrest pre2.
  induction pre2 as [|c pre2 IH]; intros pre1 ret Hall.
  - simpl. destruct rest as [|r rest']; [reflexivity|].
    simpl seq. cbn [strip_head].
    rewrite lookup_app_r by lia.
    replace (length pre1 - length pre1) with 0 by lia. simpl.
    rewrite (Hrest r) by reflexivity. reflexivity.
  - simpl in Hall. apply andb_true_iff in Hall as [Hc Hall].
    simpl length. simpl seq. cbn [strip_head].
    rewrite lookup_app_r by lia.
    replace (length pre1 - length pre1) with 0 by lia. simpl.
    rewrite Hc.
    specialize (IH (pre1 ++ [c]) (drop (S (length pre1)) (pre1 ++ c :: pre2 ++ rest)) Hall).
    rewrite <- app_assoc in IH. simpl in IH.
    rewrite length_app in IH. simpl in IH.
    replace (length pre1 + 1) with (S (length pre1)) in IH by lia.
    rewrite IH.
    destruct pre2 as [|c2 pre2'].
    + simpl.
      replace (pre1 ++ c :: rest) with ((pre1 ++ [c]) ++ rest)
        by (rewrite <- app_assoc; reflexivity).
      rewrite drop_app_length'; [reflexivity|].
      rewrite length_app. simpl. lia.
    + reflexivity.
Qed.

Lemma strip_tail_run (body : str) :
  (forall c, last body = Some c -> char_in c wrapper_chars = false) ->
  forall post extra ret,
    all_wrapper post = true ->
    strip_tail (body ++ post ++ extra)
               (rev (seq 0 (length body + length post))) ret
    = match post with [] => ret | _ :: _ => body end.
Proof.
  intros Hbody post.
  induction post as [|c post IH] using rev_ind; intros extra ret Hall.
  - simpl. rewrite Nat.add_0_r.
    destruct body as [|b body'] using rev_ind; [reflexivity|].
    rewrite length_app. simpl.
    replace (length body' + 1) with (S (length body')) by lia.
    rewrite seq_S, rev_app_distr. simpl.
    rewrite <- app_assoc. rewrite lookup_app_r by lia.
    replace (length body' - length body') with 0 by lia. simpl.
    rewrite (Hbody b); [reflexivity|]. apply last_snoc.
  - unfold all_wrapper in Hall. rewrite forallb_app in Hall.
    apply andb_true_iff in Hall as [Hall Hc]. simpl in Hc.
    rewrite andb_true_r in Hc.
    rewrite length_app. simpl.
    replace (length body + (length post + 1)) with (S (length body + length post)) by lia.
    rewrite seq_S, rev_app_distr. simpl.
    rewrite <- !app_assoc. simpl.
    replace (body ++ post ++ c :: extra) with ((body ++ post) ++ c :: extra)
      by (rewrite <- app_assoc; reflexivity).
    rewrite lookup_app_r by (rewrite length_app; lia).
    rewrite length_app.
    replace (length body + length post - (length body + length post)) with 0 by lia.
    simpl. rewrite Hc.
    rewrite take_app_length' by (rewrite length_app; lia).
    rewrite <- app_assoc.
    rewrite (IH (c :: extra) (body ++ post) Hall).
    destruct post; [apply app_nil_r | reflexivity].
Qed.

End NormalizeFacts.

Section NormalizeClaims.
Import Normalize.

Lemma clean_ends_head (body : str) :
  clean_ends body = true ->
  forall c, head body = Some c -> char_in c wrapper_chars = false.
Proof.
  unfold clean_ends. intros H c Hc. rewrite Hc in H.
  destruct (last body) eqn:Hl.
  - apply andb_true_iff in H as [H _]. now apply negb_true_iff in H.
  - destruct body; [discriminate|]. apply last_None in Hl. discriminate.
Qed.

Lemma clean_ends_last (body : str) :
  clean_ends body = true ->
  forall c, last body = Some c -> char_in c wrapper_chars = false.
Proof.
  unfold clean_ends. intros H c Hc. rewrite Hc in H.
  destruct (head body) eqn:Hh.
  - apply andb_true_iff in H as [_ H]. now apply negb_true_iff in H.
  - destruct body; discriminate.
Qed.

(** C1, on the fenced snippet: the code also strips the newline before
    the closing fence, so the result is [print(1)] without a trailing
    newline. *)
Lemma normalize_fenced_print :
  normalize fenced_print = lit "print(1)"
  /\ normalize fenced_print <> lit "print(1)" ++ [NL].
Proof. split; [vm_compute; reflexivity | vm_compute; discriminate]. Qed.

(** C1 (amended): for a text that starts with at least one space, backtick
    or newline, normalisation removes the whole leading run and the whole
    trailing run of these characters, then one leading [py\n] tag, and
    leaves the remaining body as it is. *)
Theorem normalize_wrapped (pre body post : str) :
  pre <> [] ->
  all_wrapper pre = true ->
  all_wrapper post = true ->
  clean_ends body = true ->
  normalize (pre ++ body ++ post) = strip_tag body.
Proof.
  intros Hpre Hw1 Hw2 Hclean. unfold normalize.
  destruct (decide (body = [])) as [-> | Hbody].
  - (* nothing but wrapper characters *)
    simpl app.
    assert (Hall : all_wrapper (pre ++ post) = true).
    { unfold all_wrapper in *. rewrite forallb_app, Hw1, Hw2. reflexivity. }
    pose proof (strip_head_run [] (fun c H => ltac:(discriminate)) (pre ++ post) [] [] Hall) as H1.
    simpl in H1. rewrite app_nil_r, Nat.add_0_r in H1. rewrite H1.
    destruct (pre ++ post); reflexivity.
  - pose proof (strip_head_run (body ++ post)) as H1.
    assert (Hh : forall c, head (body ++ post) = Some c -> char_in c wrapper_chars = false).
    { intros c Hc. apply (clean_ends_head body Hclean).
      destruct body; [congruence | exact Hc]. }
    specialize (H1 Hh pre [] [] Hw1).
    change ([] ++ pre ++ body ++ post) with (pre ++ body ++ post) in H1.
    change (length (@nil N)) with 0 in H1.
    rewrite <- length_app in H1. rewrite H1.
    destruct pre as [|p pre']; [congruence|].
    pose proof (strip_tail_run body (clean_ends_last body Hclean) post [] (body ++ post) Hw2) as H2.
    rewrite app_nil_r, <- length_app in H2. rewrite H2.
    destruct post; [rewrite app_nil_r|]; reflexivity.
Qed.

(** The amended C1 at the fenced snippet. *)
Lemma normalize_wrapped_witness :
  lit "  ```" <> []
  /\ all_wrapper (lit "  ```") = true
  /\ all_wrapper ([NL] ++ lit "```  ") = true
  /\ clean_ends (lit "py" ++ [NL] ++ lit "print(1)") = true
  /\ normalize (lit "  ```" ++ (lit "py" ++ [NL] ++ lit "print(1)") ++ ([NL] ++ lit "```  "))
     = lit "print(1)".
Proof.
  split; [discriminate|]. do 3 (split; [reflexivity|]).
  rewrite (normalize_wrapped (lit "  ```") (lit "py" ++ [NL] ++ lit "print(1)") ([NL] ++ lit "```  "));
    [reflexivity | discriminate | reflexivity | reflexivity | reflexivity].
Defined.

End NormalizeClaims.

Section ReplaceFacts.

Lemma startswith_app (p t : str) : startswith p (p ++ t) = true.
Proof. induction p as [|a p IH]; simpl; [reflexivity|]. now rewrite N.eqb_refl. Qed.

Lemma startswith_split (p s : str) :
  startswith p s = true -> s = p ++ drop (length p) s.
Proof.
  revert s. induction p as [|a p IH]; intros s H; [reflexivity|].
  destruct s as [|b s]; [discriminate|]. simpl in H.
  apply andb_true_iff in H as [Hab Hp]. apply N.eqb_eq in Hab. subst b.
  simpl. f_equal. now apply IH.
Qed.

Lemma contains_substring (p s : str) :
  contains p s = true <-> exists a b, s = a ++ p ++ b.
Proof.
  split.
  - induction s as [|c s IH]; simpl; intros H.
    + rewrite orb_false_r in H. exists [], []. simpl.
      destruct p; [reflexivity | discriminate].
    + apply orb_true_iff in H as [H | H].
      * exists [], (drop (length p) (c :: s)). now apply startswith_split.
      * destruct (IH H) as (a & b & ->). now exists (c :: a), b.
  - intros (a & b & ->). induction a as [|c a IH].
    + simpl app. pose proof (startswith_app p b) as E.
      destruct (p ++ b); simpl; rewrite E; reflexivity.
    + simpl. rewrite IH. apply orb_true_r.
Qed.

Lemma replace_from_skip (old new : str) (k : nat) (s : str) :
  replace_from old new k s = replace_from old new 0 (drop k s).
Proof.
  revert k. induction s as [|c s IH]; intros [|k]; try reflexivity.
  simpl. apply IH.
Qed.

(** The defining equation of [str.replace] for a non-empty pattern. *)
Lemma replace_unfold (old new : str) (c : N) (s : str) :
  old <> [] ->
  replace old new (c :: s)
  = if startswith old (c :: s)
    then new ++ replace old new (drop (length old) (c :: s))
    else c :: replace old new s.
Proof.
  intros Hold. destruct old as [|o old]; [congruence|].
  unfold replace. cbn [replace_from].
  destruct (startswith (o :: old) (c :: s)); [|reflexivity].
  rewrite replace_from_skip. simpl. now rewrite Nat.sub_0_r.
Qed.

Lemma replace_nil (old new : str) : old <> [] -> replace old new [] = [].
Proof. destruct old; [congruence | reflexivity]. Qed.

Lemma startswith_fence_inv (s : str) :
  startswith fence s = true -> exists t, s = BT :: BT :: BT :: t.
Proof.
  destruct s as [|a [|b [|c t]]]; unfold fence; cbn [startswith];
    rewrite ?andb_false_r; try discriminate.
  rewrite andb_true_r. intros H.
  apply andb_true_iff in H as [Ha H]. apply andb_true_iff in H as [Hb Hc].
  apply N.eqb_eq in Ha, Hb, Hc. subst. now exists t.
Qed.

Lemma has3_of_contains (s : str) :
  contains fence s = true -> forall n, has3 n s = true.
Proof.
  induction s as [|c s IH]; [discriminate|].
  intros H n. cbn [contains] in H. apply orb_true_iff in H as [H | H].
  - apply startswith_fence_inv in H as [t Ht]. injection Ht as -> ->.
    simpl. now rewrite !orb_true_r.
  - simpl. destruct (N.eqb c BT); [|now apply IH].
    rewrite (IH H). apply orb_true_r.
Qed.

Lemma lead_fence (s : str) : startswith fence s = true \/ lead s <= 2.
Proof.
  destruct s as [|a [|b [|c s]]]; cbn [lead];
    try (right;
         repeat match goal with
                | |- context [N.eqb ?x BT] => destruct (N.eqb x BT)
                end; lia).
  destruct (N.eqb_spec a BT) as [->|]; [|right; lia].
  destruct (N.eqb_spec b BT) as [->|]; [|right; lia].
  destruct (N.eqb_spec c BT) as [->|]; [|right; lia].
  left. reflexivity.
Qed.

Variable r : str.
Hypothesis r_breaks : forall n t, has3 n (r ++ t) = has3 0 t.

Lemma has3_replace_bounded (m : nat) :
  forall (s : str) (n : nat),
    length s <= m -> n <= 2 ->
    startswith fence s = true \/ n + lead s <= 2 ->
    has3 n (replace fence r s) = false.
Proof.
  induction m as [|m IH]; intros s n Hlen Hn Hinv.
  - destruct s; [reflexivity | simpl in Hlen; lia].
  - destruct s as [|c s]; [reflexivity|].
    rewrite replace_unfold by discriminate.
    destruct (startswith fence (c :: s)) eqn:Hsw.
    + rewrite r_breaks. apply IH; [|lia|].
      * rewrite length_drop. cbn [length fence] in *. lia.
      * destruct (lead_fence (drop (length fence) (c :: s))); auto.
    + destruct Hinv as [Hinv | Hinv]; [discriminate|].
      cbn [lead] in Hinv. cbn [has3]. cbn [length] in Hlen.
      destruct (N.eqb c BT).
      * replace (2 <=? n) with false by (symmetry; apply Nat.leb_gt; lia).
        simpl. apply IH; [lia | lia | right; lia].
      * apply IH; [lia | lia |].
        destruct (lead_fence s); auto.
Qed.

Lemma replace_no_fence (s : str) :
  ~ exists a b, replace fence r s = a ++ fence ++ b.
Proof.
  intros H. apply contains_substring in H.
  apply has3_of_contains with (n := 0) in H.
  rewrite (has3_replace_bounded (length s)) in H; [discriminate | lia | lia |].
  destruct (lead_fence s); auto.
Qed.



End ReplaceFacts.

Lemma repl_text_breaks (n : nat) (t : str) : has3 n (repl_text ++ t) = has3 0 t.
Proof. reflexivity. Qed.

Lemma repl_exc_breaks (n : nat) (t : str) : has3 n (repl_exc ++ t) = has3 0 t.
Proof. reflexivity. Qed.

Lemma repl_block_breaks (n : nat) (t : str) : has3 n (repl_block ++ t) = has3 0 t.
Proof. reflexivity. Qed.

(** ** The handler in a run where no outside call raises *)

Section HandlerFacts.
Import Exec.

Variable formatTime : Q -> str.

Ltac run_io :=
  unfold mbind, io_bind, mret, io_ret, image_save, getsize, channel_send_file,
    sendEmbed, os_remove, no_faults; cbn [files sent fst snd].

Lemma send_image_ok (start : str) (surface : Surface) (w : World) :
  send_image no_faults start surface w
  = (Done tt, {| files := delete (temp_name start) (files w);
                 sent := sent w ++ [image_event start surface] |}).
Proof.
  unfold send_image, image_event. run_io.
  rewrite lookup_insert_eq.
  destruct (png_bytes surface <? ceiling)%N; run_io;
    repeat (rewrite lookup_insert_eq; cbn [files sent]);
    rewrite delete_insert_eq; reflexivity.
Qed.

Lemma render_success (start : str) (d : Q) (t : pyval) (i : option Surface) (w : World) :
  render formatTime no_faults start
         {| duration := d; text := t; img := i; exc := None |} w
  = (Done tt,
     {| files := match i with
                 | Some _ => delete (temp_name start) (files w)
                 | None => files w
                 end;
        sent := sent w
                ++ match i with
                   | Some surface => [image_event start surface]
                   | None => []
                   end
                ++ [SendEmbed (returned_title formatTime d) (framed (str_repr t))] |}).
Proof.
  unfold render. cbn [exc img duration text].
  destruct i as [surface|].
  - unfold mbind at 1, io_bind at 1. rewrite send_image_ok.
    run_io. rewrite <- app_assoc. reflexivity.
  - run_io. reflexivity.
Qed.

Lemma render_failure (start : str) (d : Q) (t : pyval) (i : option Surface)
      (e : PyExc) (w : World) :
  render formatTime no_faults start
         {| duration := d; text := t; img := i; exc := Some e |} w
  = (Done tt,
     {| files := files w;
        sent := sent w ++ [SendEmbed exception_title (framed (exception_line e))] |}).
Proof. reflexivity. Qed.

Lemma emitted_app (w : World) (o : outcome unit) (fs : gmap str N) (evs : list event) :
  emitted w (o, {| files := fs; sent := sent w ++ evs |}) = evs.
Proof. unfold emitted. cbn [snd sent]. apply drop_app_length. Qed.

Lemma image_event_not_text (start : str) (surface : Surface) :
  is_text_embed (image_event start surface) = false
  /\ is_exception_embed (image_event start surface) = false.
Proof. unfold image_event. destruct (_ <? _)%N; split; reflexivity. Qed.

End HandlerFacts.

Section HandlerClaims.
Import Exec.

Variable formatTime : Q -> str.

(** C3, at the boundary: an image file of exactly [2^22] bytes is not
    handed off; the channel gets the "Image cannot be sent" notice, whose
    text says the file is larger than 4 MiB, and then the text embed. *)
Theorem image_of_4MiB_refused (start : str) (d : Q) (t : pyval) (w : World) :
  quiet_events formatTime start
               {| duration := d; text := t;
                  img := Some {| png_bytes := 4194304 |}; exc := None |} w
  = [SendEmbed too_large_title too_large_body;
     SendEmbed (returned_title formatTime d) (framed (str_repr t))].
Proof. unfold quiet_events. rewrite render_success, emitted_app. reflexivity. Qed.

(** The size test of the hand-off, in general. *)
Lemma image_handed_off_iff (start : str) (surface : Surface) :
  image_event start surface = SendFile (temp_name start)
  <-> (png_bytes surface < 2 ^ 22)%N.
Proof.
  unfold image_event, ceiling.
  destruct (N.ltb_spec (png_bytes surface) (2 ^ 22)); split; intros; try easy; lia.
Qed.

(** C4, at a text of 2,042 characters: the truncated description is one
    character over the budget, 4 for the opening fence and newline, 2,038
    of the text and 7 for [" ...```"]. *)
Theorem long_text_block_is_2049 :
  length (framed (str_repr (PStr (repeat 97%N 2042)))) = 2049.
Proof. vm_compute. reflexivity. Qed.

Lemma framed_truncated_length (s : str) :
  2048 < length s + 7 -> length (framed s) = 2049.
Proof.
  intros H. unfold framed. destruct (Nat.ltb_spec 2048 (length s + 7)); [|lia].
  rewrite !length_app, length_take. cbn [length lit map list_ascii_of_string]. lia.
Qed.

Lemma framed_length (s : str) : length (framed s) <= 2049.
Proof.
  unfold framed. destruct (Nat.ltb_spec 2048 (length s + 7)).
  - rewrite !length_app, length_take. cbn [length lit map list_ascii_of_string]. lia.
  - rewrite !length_app. cbn [length lit map list_ascii_of_string]. lia.
Qed.

(** C5: after the replacement the text holds no run of three backticks,
    for each of the three replacement strings of the sources (result text,
    exception name and arguments, [code_block]). *)
Theorem neutralized_has_no_fence (s : str) :
  (~ exists a b, replace fence repl_text s = a ++ fence ++ b)
  /\ (~ exists a b, replace fence repl_exc s = a ++ fence ++ b)
  /\ (~ exists a b, replace fence repl_block s = a ++ fence ++ b).
Proof.
  repeat split.
  - apply replace_no_fence, repl_text_breaks.
  - apply replace_no_fence, repl_exc_breaks.
  - apply replace_no_fence, repl_block_breaks.
Qed.


End HandlerClaims.

(** C7, as stated, fails: when [msg.channel.send] raises, [os.remove] is
    never reached and the temporary file stays on the file system. *)
Lemma temp_file_left_behind :
  fst failing_send_run = Raised (lit "HTTPException")
  /\ files (snd failing_send_run) !! Exec.temp_name (lit "1.5") = Some 100%N.
Proof.
  vm_compute. split; reflexivity.
Qed.

Section UtilsFacts.
Import Utils.

Lemma slice_to_length (s : str) (k : Z) :
  (0 <= k)%Z -> length (slice_to s k) <= Z.to_nat k.
Proof.
  intros Hk. unfold slice_to.
  destruct (Z.ltb_spec k 0); [lia|]. rewrite length_take. lia.
Qed.

(** [code_block] keeps within its budget of 2,048 characters. *)
Lemma code_block_length (s : str) : length (code_block s 2048) <= 2048.
Proof.
  unfold code_block.
  destruct (Z.ltb_spec (2048 - 7) (Z.of_nat (length (replace fence repl_block s)))).
  - rewrite !length_app.
    pose proof (slice_to_length (replace fence repl_block s) (2048 - 7 - 7) ltac:(lia)).
    cbn [length lit map list_ascii_of_string]. lia.
  - rewrite !length_app.
    pose proof (slice_to_length (replace fence repl_block s) (2048 - 7) ltac:(lia)).
    cbn [length lit map list_ascii_of_string]. lia.
Qed.

Lemma drop_last_length (s : str) : length (drop_last s) <= length s.
Proof. unfold drop_last. rewrite length_take. lia. Qed.

Lemma split_loop_bounded (lines : list str) :
  forall (temp : str) (out : list str),
    Forall (fun l => length l <= 1999) lines ->
    length temp <= 2000 ->
    Forall (fun c => length c <= 2000) out ->
    Forall (fun c => length c <= 2000) (fst (split_loop lines temp out))
    /\ length (snd (split_loop lines temp out)) <= 2000.
Proof.
  induction lines as [|line lines IH]; intros temp out Hlines Htemp Hout.
  - split; assumption.
  - inversion Hlines as [|? ? Hline Hrest]; subst. cbn [split_loop].
    destruct (Nat.ltb_spec 2000 (length temp + length line + 1)).
    + apply IH; [assumption | |].
      * rewrite length_app. simpl. lia.
      * apply Forall_app. split; [assumption|].
        constructor; [|constructor].
        pose proof (drop_last_length temp). lia.
    + apply IH; [assumption | | assumption].
      rewrite !length_app. simpl. lia.
Qed.

Lemma str_mul_length (s : str) (n : Z) :
  length (str_mul s n) = Z.to_nat n * length s.
Proof.
  unfold str_mul. induction (Z.to_nat n) as [|k IH]; [reflexivity|].
  cbn [repeat concat]. rewrite length_app, IH. lia.
Qed.

Lemma int_of_scaled_bounds (d : Z) (c : Q) :
  (0 <= d)%Z -> (0 <= c)%Q -> (c <= 1)%Q ->
  (0 <= int_of_Q (inject_Z d * c) <= d)%Z.
Proof.
  intros Hd H0 H1. destruct c as [n D]. unfold Qle in H0, H1. cbn in H0, H1.
  unfold int_of_Q. cbn [Qmult inject_Z Qnum Qden].
  change (1 * D)%positive with D.
  assert (Hn : (0 <= n <= Z.pos D)%Z) by lia.
  rewrite Z.quot_div_nonneg by nia.
  split.
  - apply Z.div_pos; nia.
  - apply Z.div_le_upper_bound; nia.
Qed.

Lemma clamp_bounds (pct : Q) :
  let c := if Qlt_le_dec pct 0 then 0%Q
           else if Qlt_le_dec 1 pct then 1%Q else pct in
  (0 <= c)%Q /\ (c <= 1)%Q.
Proof.
  cbv zeta. destruct (Qlt_le_dec pct 0); [split; discriminate|].
  destruct (Qlt_le_dec 1 pct); [split; discriminate|].
  split; assumption.
Qed.

End UtilsFacts.

Section UtilsClaims.
Import Utils.

(** C8, as stated, fails: a single line of 2,000 characters comes back as
    an empty chunk followed by a chunk of 2,001 characters. *)
Lemma split_long_line_too_long :
  split_long_message (repeat 97%N 2000) = [[]; repeat 97%N 2000 ++ [NL]]
  /\ ~ Forall (fun c => length c <= 2000) (split_long_message (repeat 97%N 2000)).
Proof.
  assert (E : split_long_message (repeat 97%N 2000) = [[]; repeat 97%N 2000 ++ [NL]])
    by (vm_compute; reflexivity).
  split; [exact E|].
  rewrite E. intros H.
  apply Forall_cons in H as [_ H]. apply Forall_cons in H as [H _].
  rewrite length_app, repeat_length in H. cbn [length] in H. lia.
Qed.

(** C8 (amended): when every line of the message has at most 1,999
    characters, every chunk has at most 2,000. *)
Theorem split_long_message_bounded (message : str) :
  forallb (fun l => length l <=? 1999) (split NL message) = true ->
  Forall (fun c => length c <= 2000) (split_long_message message).
Proof.
  intros H. unfold split_long_message.
  assert (Hlines : Forall (fun l => length l <= 1999) (split NL message)).
  { apply Forall_forall. intros l Hl.
    rewrite forallb_forall in H. apply Nat.leb_le, H.
    now apply list_elem_of_In. }
  destruct (split_loop_bounded (split NL message) [] [] Hlines) as [Hout Htemp];
    [simpl; lia | constructor |].
  destruct (split_loop (split NL message) [] []) as [out temp].
  cbn [fst snd] in *.
  destruct temp; [assumption|].
  apply Forall_app. split; [assumption|]. constructor; [assumption | constructor].
Qed.

Lemma split_long_message_bounded_witness :
  forallb (fun l => length l <=? 1999) (split NL (lit "ab" ++ [NL] ++ lit "cd")) = true
  /\ Forall (fun c => length c <= 2000)
            (split_long_message (lit "ab" ++ [NL] ++ lit "cd")).
Proof. split; [reflexivity | apply split_long_message_bounded; reflexivity]. Defined.

(** C9: with the default one-character glyphs the bar has exactly
    [divisions] characters, whatever the value of [pct]. *)
Theorem progress_bar_length (pct : Q) (divisions : Z) :
  (0 <= divisions)%Z ->
  Z.of_nat (length (progress_bar pct full_bar_default empty_bar_default divisions))
  = divisions.
Proof.
  intros Hd. unfold progress_bar.
  destruct (clamp_bounds pct) as [H0 H1].
  set (c := if Qlt_le_dec pct 0 then 0%Q
            else if Qlt_le_dec 1 pct then 1%Q else pct) in *.
  pose proof (int_of_scaled_bounds divisions c Hd H0 H1) as Hk.
  rewrite length_app, !str_mul_length. cbn [length full_bar_default empty_bar_default].
  lia.
Qed.

Lemma progress_bar_length_witness :
  (0 <= 10)%Z
  /\ Z.of_nat (length (progress_bar (37 # 100) full_bar_default empty_bar_default 10)) = 10%Z.
Proof. split; [lia | apply progress_bar_length; lia]. Defined.

(** C10, at a standard emoji shortcode: the name has two colons, the part
    after the last colon is empty, and [int('')] raises outside the [try]. *)
Theorem filter_emoji_id_raises :
  filter_emoji_id (lit ":thinking:") = Raised ValueError.
Proof. vm_compute. reflexivity. Qed.

(** The guarded call never raises. *)
Lemma filter_emoji_id_few_colons (name : str) :
  count COLON name < 2 ->
  exists v, filter_emoji_id name = Done v.
Proof.
  intros H. unfold filter_emoji_id.
  destruct (Nat.leb_spec 2 (count COLON name)); [lia|].
  destruct (py_int name); eauto.
Qed.

End UtilsClaims.

(** ** Numbers and durations *)

Section FormattingFacts.
Import Formatting.
Local Open Scope Z_scope.

(** [clamp] with ordered bounds lands between them, and changes nothing
    but the values outside. *)
Theorem clamp_in_range (value min_ max_ : Z) :
  min_ <= max_ ->
  min_ <= clamp value min_ max_ <= max_
  /\ (clamp value min_ max_ = value <-> min_ <= value <= max_).
Proof. unfold clamp. lia. Qed.

Lemma clamp_in_range_witness :
  0 <= 10
  /\ 0 <= clamp 42 0 10 <= 10
  /\ (clamp 42 0 10 = 42 <-> 0 <= 42 <= 10).
Proof. split; [lia | apply clamp_in_range; lia]. Defined.

Lemma clamp_inverted (value min_ max_ : Z) :
  max_ < min_ -> clamp value min_ max_ = min_.
Proof. unfold clamp. lia. Qed.

Lemma rgb_int_value (col : Color) :
  color_to_rgb_int col = col_r col * 65536 + col_g col * 256 + col_b col.
Proof.
  unfold color_to_rgb_int. rewrite !Z.shiftl_mul_pow2 by lia.
  change (2 ^ 8) with 256. lia.
Qed.

(** The packed colour is a 24-bit number from which the three bytes are
    read back by shifting and masking; alpha is not part of it. *)
Theorem color_to_rgb_int_unpack (col : Color) :
  0 <= col_r col < 256 -> 0 <= col_g col < 256 -> 0 <= col_b col < 256 ->
  0 <= color_to_rgb_int col < 2 ^ 24
  /\ Z.shiftr (color_to_rgb_int col) 16 = col_r col
  /\ Z.land (Z.shiftr (color_to_rgb_int col) 8) 255 = col_g col
  /\ Z.land (color_to_rgb_int col) 255 = col_b col.
Proof.
  intros Hr Hg Hb. rewrite rgb_int_value.
  change 255 with (Z.ones 8). rewrite !Z.land_ones, !Z.shiftr_div_pow2 by lia.
  change (2 ^ 24) with 16777216. change (2 ^ 16) with 65536. change (2 ^ 8) with 256.
  repeat split; try lia.
  - symmetry. apply Z.div_unique with (r := col_g col * 256 + col_b col); lia.
  - assert (E : (col_r col * 65536 + col_g col * 256 + col_b col) / 256
                = col_r col * 256 + col_g col)
      by (symmetry; apply Z.div_unique with (r := col_b col); lia).
    rewrite E. symmetry. apply Z.mod_unique with (q := col_r col); lia.
  - symmetry.
    apply Z.mod_unique with (q := col_r col * 256 + col_g col); lia.
Qed.

Lemma color_to_rgb_int_unpack_witness :
  (0 <= col_r orange < 256 /\ 0 <= col_g orange < 256 /\ 0 <= col_b orange < 256)
  /\ (0 <= color_to_rgb_int orange < 2 ^ 24
      /\ Z.shiftr (color_to_rgb_int orange) 16 = col_r orange
      /\ Z.land (Z.shiftr (color_to_rgb_int orange) 8) 255 = col_g orange
      /\ Z.land (color_to_rgb_int orange) 255 = col_b orange).
Proof.
  split; [simpl; lia|].
  apply (color_to_rgb_int_unpack orange); simpl; lia.
Defined.

(** One turn of the loop of [format_long_time], with the quotient and the
    remainder named. *)
Lemma long_time_step (name : str) (count : Z) (units : list (str * Z))
      (seconds value rest : Z) (result : list str) :
  0 < count -> seconds = value * count + rest -> 0 <= rest < count ->
  long_time_loop ((name, count) :: units) seconds result
  = if negb (value =? 0) || (is_nil result && (count =? 1))
    then long_time_loop units rest
           (result ++ [py_str (PInt value) ++ lit " "
                       ++ (if value =? 1 then drop_last name else name)])
    else long_time_loop units rest result.
Proof.
  intros Hc Hs Hr. cbn [long_time_loop].
  assert (Hv : seconds / count = value)
    by (symmetry; apply Z.div_unique with (r := rest); lia).
  rewrite Hv.
  replace (seconds - value * count) with rest by lia.
  destruct (negb (value =? 0) || (is_nil result && (count =? 1))) eqn:E;
    [reflexivity|].
  apply orb_false_iff in E as [E _]. apply negb_false_iff, Z.eqb_eq in E.
  subst value. f_equal. lia.
Qed.

Lemma long_time_loop_last_unit (units : list (str * Z)) :
  forall (name : str) (seconds : Z) (result : list str),
    long_time_loop (units ++ [(name, 1)]) seconds result <> [].
Proof.
  induction units as [|[n c] units IH]; intros name seconds result.
  - cbn [app long_time_loop].
    destruct (negb (seconds / 1 =? 0)) eqn:E; cbn [orb].
    + intros H. now apply app_eq_nil in H as [_ H].
    + destruct result; cbn [is_nil andb].
      * change (1 =? 1) with true. cbn. discriminate.
      * discriminate.
  - cbn [app long_time_loop].
    destruct (negb (seconds / c =? 0) || (is_nil result && (c =? 1))); apply IH.
Qed.

End FormattingFacts.

Section DurationFacts.
Import Formatting.
Local Open Scope Z_scope.

Lemma take_init_cons (a b : str) (l : list str) :
  take (length (a :: b :: l) - 1)%nat (a :: b :: l)
  = a :: take (length (b :: l) - 1)%nat (b :: l).
Proof. cbn [length]. rewrite !Nat.sub_succ, !Nat.sub_0_r. reflexivity. Qed.

Lemma closing_enumeration (parts : list str) :
  parts <> [] -> Forall (fun p => p <> []) parts ->
  closing parts = Done (enumeration parts).
Proof.
  induction parts as [|a parts IH]; [congruence|]. intros _ Hne.
  apply Forall_cons in Hne as [Ha Hne].
  destruct parts as [|b parts]; [reflexivity|].
  destruct parts as [|c parts].
  - unfold closing. cbn. destruct a; [congruence | reflexivity].
  - specialize (IH ltac:(discriminate) Hne).
    change (enumeration (a :: b :: c :: parts))
      with (a ++ lit ", " ++ enumeration (b :: c :: parts)).
    remember (enumeration (b :: c :: parts)) as en eqn:Hen. clear Hen.
    unfold closing in *.
    change (last (a :: b :: c :: parts)) with (last (b :: c :: parts)).
    destruct (last (b :: c :: parts)) as [final|]; [|discriminate].
    rewrite take_init_cons.
    remember (take (length (b :: c :: parts) - 1)%nat (b :: c :: parts)) as init eqn:Hinit.
    assert (Hi : init <> []) by (rewrite Hinit, take_init_cons; discriminate).
    assert (Hin : Forall (fun p => p <> []) init).
    { rewrite Hinit. apply Forall_take. exact Hne. }
    clear Hinit.
    destruct init as [|i0 init]; [congruence|].
    change (join (lit ", ") (a :: i0 :: init))
      with (a ++ lit ", " ++ join (lit ", ") (i0 :: init)).
    destruct (join (lit ", ") (i0 :: init)) as [|x rest] eqn:E.
    + exfalso. apply Forall_cons in Hin as [Hi0 _].
      destruct init; cbn in E; [congruence|].
      apply app_eq_nil in E as [E _]. congruence.
    + assert (IH' : (x :: rest) ++ lit " and " ++ final = en) by congruence.
      rewrite <- IH'. destruct a; [congruence|].
      cbn [app]. rewrite <- !app_assoc. reflexivity.
Qed.

Lemma amount_nonempty (value : Z) (unit_name : str) : amount value unit_name <> [].
Proof. unfold amount. destruct (py_str (PInt value)); discriminate. Qed.

Lemma amounts_nonempty (w d h m s : Z) : Forall (fun p => p <> []) (amounts w d h m s).
Proof.
  unfold amounts, amount_if_any.
  repeat match goal with
         | |- context [Z.eqb ?x 0] => destruct (Z.eqb x 0)
         end;
    repeat (apply Forall_cons; split; [apply amount_nonempty|]); apply Forall_nil_2.
Qed.

Lemma long_time_loop_amounts (w d h m s : Z) :
  0 <= w -> 0 <= d < 7 -> 0 <= h < 24 -> 0 <= m < 60 -> 0 <= s < 60 ->
  long_time_loop time_units (w * 604800 + d * 86400 + h * 3600 + m * 60 + s) []
  = match amounts w d h m s with
    | [] => [lit "0 seconds"]
    | _ :: _ => amounts w d h m s
    end.
Proof.
  intros Hw Hd Hh Hm Hs. unfold time_units.
  rewrite (long_time_step _ 604800 _ _ w (d * 86400 + h * 3600 + m * 60 + s)) by lia.
  rewrite !(long_time_step _ 86400 _ _ d (h * 3600 + m * 60 + s)) by lia.
  rewrite !(long_time_step _ 3600 _ _ h (m * 60 + s)) by lia.
  rewrite !(long_time_step _ 60 _ _ m s) by lia.
  rewrite !(long_time_step _ 1 _ s s 0) by lia.
  unfold amounts, amount_if_any, amount.
  destruct (Z.eqb_spec s 0) as [->|_];
    destruct (w =? 0); destruct (d =? 0); destruct (h =? 0); destruct (m =? 0);
    try destruct (w =? 1); try destruct (d =? 1); try destruct (h =? 1);
    try destruct (m =? 1); try destruct (s =? 1);
    reflexivity.
Qed.

(** A duration of [w] weeks, [d] days, [h] hours, [m] minutes and [s]
    seconds reads as its parts that are not zero, largest first, each in
    the singular when it is one, joined by commas and a final "and";
    zero reads "0 seconds". *)
Theorem format_long_time_reads (w d h m s : Z) :
  0 <= w -> 0 <= d < 7 -> 0 <= h < 24 -> 0 <= m < 60 -> 0 <= s < 60 ->
  format_long_time (w * 604800 + d * 86400 + h * 3600 + m * 60 + s)
  = Done (enumeration (amounts w d h m s)).
Proof.
  intros Hw Hd Hh Hm Hs.
  change (format_long_time (w * 604800 + d * 86400 + h * 3600 + m * 60 + s))
    with (closing (long_time_loop time_units
                     (w * 604800 + d * 86400 + h * 3600 + m * 60 + s) [])).
  rewrite long_time_loop_amounts by assumption.
  pose proof (amounts_nonempty w d h m s) as Hne.
  destruct (amounts w d h m s) as [|a parts] eqn:E; [reflexivity|].
  apply closing_enumeration; [discriminate | assumption].
Qed.

Lemma format_long_time_reads_witness :
  (0 <= 1 /\ 0 <= 2 < 7 /\ 0 <= 0 < 24 /\ 0 <= 1 < 60 /\ 0 <= 30 < 60)
  /\ format_long_time (1 * 604800 + 2 * 86400 + 0 * 3600 + 1 * 60 + 30)
     = Done (lit "1 week, 2 days, 1 minute and 30 seconds").
Proof.
  split; [lia|]. rewrite (format_long_time_reads 1 2 0 1 30) by lia. reflexivity.
Defined.

Lemma long_time_loop_parts (units : list (str * Z)) :
  forall (seconds : Z) (result : list str),
    Forall (fun p => p <> []) result ->
    Forall (fun p => p <> []) (long_time_loop units seconds result).
Proof.
  induction units as [|[n c] units IH]; intros seconds result H; [exact H|].
  cbn [long_time_loop].
  destruct (negb (seconds / c =? 0) || (is_nil result && (c =? 1))); apply IH;
    [|exact H].
  apply Forall_app. split; [exact H|].
  apply Forall_cons. split; [|apply Forall_nil_2].
  destruct (py_str (PInt (seconds / c))); discriminate.
Qed.

(** [format_long_time] never fails on [result[-1]]: the list of parts is
    never empty, for negative numbers of seconds as well, and neither is
    the text returned. *)
Theorem format_long_time_total (seconds : Z) :
  exists text, format_long_time seconds = Done text /\ text <> [].
Proof.
  pose proof (long_time_loop_last_unit
                [(lit "weeks", 604800); (lit "days", 86400); (lit "hours", 3600);
                 (lit "minutes", 60)] (lit "seconds") seconds []) as Hne.
  pose proof (long_time_loop_parts time_units seconds [] (Forall_nil_2 _)) as Hparts.
  change (format_long_time seconds)
    with (closing (long_time_loop time_units seconds [])).
  change ([(lit "weeks", 604800); (lit "days", 86400); (lit "hours", 3600);
           (lit "minutes", 60)] ++ [(lit "seconds", 1)]) with time_units in Hne.
  unfold closing.
  destruct (last (long_time_loop time_units seconds [])) as [final|] eqn:El.
  - destruct (join _ _) as [|x rest] eqn:Ej.
    + exists final. split; [reflexivity|].
      apply last_Some in El as [init El]. rewrite El in Hparts.
      apply Forall_app in Hparts as [_ Hf]. now apply Forall_cons in Hf as [Hf _].
    + eexists. split; [reflexivity | discriminate].
  - apply last_None in El. congruence.
Qed.

End DurationFacts.

(** ** [int(str(z))] *)

Section IntText.
Import Utils.
Local Open Scope Z_scope.

Lemma parse_digit_step (k : N) (b : bool) (acc : Z) (rest : str) :
  (k < 10)%N ->
  parse_digits b acc ((48 + k)%N :: rest) = parse_digits true (10 * acc + Z.of_N k) rest.
Proof.
  intros Hk. cbn [parse_digits].
  replace (N.eqb (48 + k) 95) with false by (symmetry; apply N.eqb_neq; lia).
  unfold digit_val.
  replace ((48 <=? 48 + k)%N && (48 + k <=? 57)%N) with true
    by (symmetry; apply andb_true_iff; split; apply N.leb_le; lia).
  replace (48 + k - 48)%N with k by lia. reflexivity.
Qed.

Ltac digit_step k c d :=
  change (digit_text (c d)) with ((48 + k)%N :: digit_text d);
  rewrite parse_digit_step by reflexivity.

Lemma parse_digits_acc (d : Decimal.uint) :
  forall acc : positive,
    parse_digits true (Z.pos acc) (digit_text d) = Some (Z.pos (Pos.of_uint_acc d acc)).
Proof.
  induction d as [|d IH|d IH|d IH|d IH|d IH|d IH|d IH|d IH|d IH|d IH]; intros acc;
    [reflexivity| ..]; cbn [Pos.of_uint_acc]; rewrite <- IH.
  - digit_step 0%N Decimal.D0 d. f_equal.
  - digit_step 1%N Decimal.D1 d. f_equal; lia.
  - digit_step 2%N Decimal.D2 d. f_equal; lia.
  - digit_step 3%N Decimal.D3 d. f_equal; lia.
  - digit_step 4%N Decimal.D4 d. f_equal; lia.
  - digit_step 5%N Decimal.D5 d. f_equal; lia.
  - digit_step 6%N Decimal.D6 d. f_equal; lia.
  - digit_step 7%N Decimal.D7 d. f_equal; lia.
  - digit_step 8%N Decimal.D8 d. f_equal; lia.
  - digit_step 9%N Decimal.D9 d. f_equal; lia.
Qed.

Lemma parse_digits_zero (d : Decimal.uint) :
  forall b : bool,
    d <> Decimal.Nil \/ b = true ->
    parse_digits b 0 (digit_text d) = Some (Z.of_N (Pos.of_uint d)).
Proof.
  induction d as [|d IH|d IH|d IH|d IH|d IH|d IH|d IH|d IH|d IH|d IH]; intros b Hb.
  - destruct Hb as [Hb | ->]; [congruence | reflexivity].
  - digit_step 0%N Decimal.D0 d. cbn [Pos.of_uint]. apply IH. now right.
  - digit_step 1%N Decimal.D1 d. apply (parse_digits_acc d 1).
  - digit_step 2%N Decimal.D2 d. apply (parse_digits_acc d 2).
  - digit_step 3%N Decimal.D3 d. apply (parse_digits_acc d 3).
  - digit_step 4%N Decimal.D4 d. apply (parse_digits_acc d 4).
  - digit_step 5%N Decimal.D5 d. apply (parse_digits_acc d 5).
  - digit_step 6%N Decimal.D6 d. apply (parse_digits_acc d 6).
  - digit_step 7%N Decimal.D7 d. apply (parse_digits_acc d 7).
  - digit_step 8%N Decimal.D8 d. apply (parse_digits_acc d 8).
  - digit_step 9%N Decimal.D9 d. apply (parse_digits_acc d 9).
Qed.

Lemma lstrip_no_space (s : str) :
  Forall (fun c => is_space c = false) s -> lstrip s = s.
Proof.
  destruct s as [|c s]; [reflexivity|]. intros H.
  apply Forall_cons in H as [Hc _]. cbn [lstrip]. now rewrite Hc.
Qed.

Lemma strip_no_space (s : str) :
  Forall (fun c => is_space c = false) s -> strip s = s.
Proof.
  intros H. unfold strip. rewrite (lstrip_no_space s H).
  rewrite lstrip_no_space by (apply Forall_rev; exact H).
  apply rev_involutive.
Qed.

Lemma digit_text_no_space (d : Decimal.uint) :
  Forall (fun c => is_space c = false) (digit_text d).
Proof.
  induction d; [apply Forall_nil_2 | ..];
    (apply Forall_cons; split; [reflexivity | assumption]).
Qed.

Lemma py_int_digit_text (d : Decimal.uint) :
  d <> Decimal.Nil -> py_int (digit_text d) = Some (Z.of_N (Pos.of_uint d)).
Proof.
  intros Hd. rewrite <- (parse_digits_zero d false) by now left.
  unfold py_int. rewrite strip_no_space by apply digit_text_no_space.
  destruct d; [congruence | reflexivity ..].
Qed.

Lemma py_int_minus_digit_text (d : Decimal.uint) :
  d <> Decimal.Nil ->
  py_int (45%N :: digit_text d) = Some (- Z.of_N (Pos.of_uint d)).
Proof.
  intros Hd. unfold py_int.
  rewrite strip_no_space
    by (apply Forall_cons; split; [reflexivity | apply digit_text_no_space]).
  rewrite (parse_digits_zero d false) by now left. reflexivity.
Qed.

Lemma to_uint_not_nil (p : positive) : Pos.to_uint p <> Decimal.Nil.
Proof.
  intros H. pose proof (DecimalPos.Unsigned.of_to p) as E.
  rewrite H in E. discriminate.
Qed.

(** Reading back the text of an integer gives the integer. *)
Lemma py_int_py_str (z : Z) : py_int (py_str (PInt z)) = Some z.
Proof.
  destruct z as [|p|p]; [reflexivity | |].
  - pose proof (to_uint_not_nil p) as Hn.
    change (py_str (PInt (Z.pos p)))
      with (lit (NilZero.string_of_uint (Pos.to_uint p))).
    replace (lit (NilZero.string_of_uint (Pos.to_uint p)))
      with (digit_text (Pos.to_uint p))
      by (unfold digit_text; destruct (Pos.to_uint p); [congruence | reflexivity ..]).
    rewrite py_int_digit_text by assumption.
    now rewrite DecimalPos.Unsigned.of_to.
  - pose proof (to_uint_not_nil p) as Hn.
    change (py_str (PInt (Z.neg p)))
      with (45%N :: lit (NilZero.string_of_uint (Pos.to_uint p))).
    replace (lit (NilZero.string_of_uint (Pos.to_uint p)))
      with (digit_text (Pos.to_uint p))
      by (unfold digit_text; destruct (Pos.to_uint p); [congruence | reflexivity ..]).
    rewrite py_int_minus_digit_text by assumption.
    now rewrite DecimalPos.Unsigned.of_to.
Qed.

(** The text of an integer: a sign or a digit, then digits. *)
Lemma py_str_int_chars (z : Z) :
  Forall (fun c => (c = 45 \/ 48 <= c <= 57)%N) (py_str (PInt z)).
Proof.
  assert (Hd : forall d, Forall (fun c => (c = 45 \/ 48 <= c <= 57)%N) (digit_text d)).
  { induction d; [apply Forall_nil_2 | ..];
      (apply Forall_cons; split; [right; cbv; split; discriminate | assumption]). }
  assert (Hz : forall d, lit (NilZero.string_of_uint d) = lit "0"
                         \/ lit (NilZero.string_of_uint d) = digit_text d).
  { intros d. destruct d; [left; reflexivity | right; reflexivity ..]. }
  destruct z as [|p|p].
  - apply Forall_cons. split; [right; cbv; split; discriminate | apply Forall_nil_2].
  - change (py_str (PInt (Z.pos p)))
      with (lit (NilZero.string_of_uint (Pos.to_uint p))).
    destruct (Hz (Pos.to_uint p)) as [-> | ->]; [|apply Hd].
    apply Forall_cons. split; [right; cbv; split; discriminate | apply Forall_nil_2].
  - change (py_str (PInt (Z.neg p)))
      with (45%N :: lit (NilZero.string_of_uint (Pos.to_uint p))).
    apply Forall_cons. split; [now left|].
    destruct (Hz (Pos.to_uint p)) as [-> | ->]; [|apply Hd].
    apply Forall_cons. split; [right; cbv; split; discriminate | apply Forall_nil_2].
Qed.

End IntText.

(** ** Mentions and emoji ids *)

Section MentionFacts.
Import Utils Mentions.

Lemma replace_char_empty (c : N) (s : str) :
  replace [c] [] s = List.filter (fun x => negb (N.eqb c x)) s.
Proof.
  induction s as [|x s IH]; [reflexivity|].
  rewrite replace_unfold by discriminate.
  cbn [startswith List.filter length drop app]. rewrite andb_true_r.
  destruct (N.eqb c x); cbn [negb]; [rewrite drop_0 | f_equal]; exact IH.
Qed.

Lemma filter_filter (f g : N -> bool) (s : str) :
  List.filter f (List.filter g s) = List.filter (fun x => g x && f x) s.
Proof.
  induction s as [|x s IH]; [reflexivity|]. cbn [List.filter].
  destruct (g x); cbn [List.filter andb]; [destruct (f x)|]; now rewrite IH.
Qed.

(** The seven replacements of [filter_id] amount to dropping every
    mention character, wherever it stands. *)
Lemma filter_id_cleaning (mention : str) :
  fold_left (fun mention char => replace [char] [] mention) mention_chars mention
  = List.filter (fun x => negb (char_in x mention_chars)) mention.
Proof.
  unfold mention_chars. cbn [fold_left].
  rewrite !replace_char_empty, !filter_filter.
  apply filter_ext. intros x. unfold char_in. cbn [existsb].
  rewrite !(N.eqb_sym x).
  repeat match goal with |- context [N.eqb ?a x] => destruct (N.eqb a x) end;
    reflexivity.
Qed.

Lemma filter_keeps (f : N -> bool) (s : str) :
  Forall (fun c => f c = true) s -> List.filter f s = s.
Proof.
  induction 1 as [|c s Hc _ IH]; [reflexivity|].
  cbn [List.filter]. now rewrite Hc, IH.
Qed.

Lemma filter_drops (f : N -> bool) (s : str) :
  forallb f s = true -> List.filter (fun c => negb (f c)) s = [].
Proof.
  induction s as [|c s IH]; [reflexivity|]. cbn [forallb List.filter].
  intros H. apply andb_true_iff in H as [Hc H].
  rewrite Hc. cbn [negb]. now apply IH.
Qed.

Lemma int_text_kept (z : Z) :
  List.filter (fun x => negb (char_in x mention_chars)) (py_str (PInt z))
  = py_str (PInt z).
Proof.
  apply filter_keeps. eapply Forall_impl; [apply py_str_int_chars|].
  intros c Hc. cbv beta in *. unfold char_in, mention_chars. cbn [existsb].
  repeat match goal with
         | |- context [N.eqb c ?a] => destruct (N.eqb_spec c a); [lia|]
         end.
  reflexivity.
Qed.

(** [filter_id] reads the id back from a mention: whatever mention
    characters stand before and after the text of the integer. *)
Theorem filter_id_reads_mention (before after : str) (id : Z) :
  forallb (fun c => char_in c mention_chars) before = true ->
  forallb (fun c => char_in c mention_chars) after = true ->
  filter_id (before ++ py_str (PInt id) ++ after) = Done id.
Proof.
  intros Hb Ha. unfold filter_id. rewrite filter_id_cleaning.
  rewrite !List.filter_app, int_text_kept.
  rewrite (filter_drops _ before Hb), (filter_drops _ after Ha), app_nil_r.
  cbn [app]. now rewrite py_int_py_str.
Qed.

Lemma filter_id_reads_mention_witness :
  forallb (fun c => char_in c mention_chars) (lit "<@!") = true
  /\ forallb (fun c => char_in c mention_chars) (lit ">") = true
  /\ filter_id (lit "<@!" ++ py_str (PInt 6969) ++ lit ">") = Done 6969%Z.
Proof.
  split; [reflexivity|]. split; [reflexivity|].
  apply filter_id_reads_mention; reflexivity.
Defined.

Lemma parse_digits_needs_digit (s : str) :
  forall (b : bool) (acc z : Z),
    parse_digits b acc s = Some z -> b = true \/ has_digit s = true.
Proof.
  induction s as [|c s IH]; intros b acc z H.
  - cbn in H. destruct b; [now left | discriminate].
  - cbn [parse_digits] in H. right. cbn [has_digit existsb].
    destruct (N.eqb c 95).
    + destruct b; [|discriminate].
      destruct (IH _ _ _ H) as [? | Hd]; [discriminate|].
      unfold has_digit in Hd. rewrite Hd. apply orb_true_r.
    + unfold digit_val in H.
      destruct ((48 <=? c)%N && (c <=? 57)%N); [reflexivity | discriminate].
Qed.

Lemma has_digit_lstrip (s : str) : has_digit (lstrip s) = true -> has_digit s = true.
Proof.
  induction s as [|c s IH]; [easy|]. cbn [lstrip].
  destruct (is_space c); [|easy].
  intros H. cbn [has_digit existsb]. apply IH in H. unfold has_digit in H.
  rewrite H. apply orb_true_r.
Qed.

Lemma has_digit_rev (s : str) : has_digit (rev s) = true -> has_digit s = true.
Proof.
  unfold has_digit. rewrite !existsb_exists.
  intros (c & Hin & Hc). exists c. split; [now apply in_rev | exact Hc].
Qed.

Lemma has_digit_tail (c : N) (s : str) : has_digit s = true -> has_digit (c :: s) = true.
Proof. intros H. cbn [has_digit existsb]. unfold has_digit in H. rewrite H. apply orb_true_r. Qed.

Lemma py_int_needs_digit (s : str) (z : Z) :
  py_int s = Some z -> has_digit s = true.
Proof.
  unfold py_int, strip. intros H.
  apply has_digit_lstrip, has_digit_rev, has_digit_lstrip, has_digit_rev.
  remember (rev (lstrip (rev (lstrip s)))) as t eqn:Ht. clear Ht.
  assert (Hp : forall u w, parse_digits false 0 u = Some w -> has_digit u = true).
  { intros u w Hu. destruct (parse_digits_needs_digit u false 0%Z w Hu); [discriminate | assumption]. }
  destruct t as [|c t]; [discriminate|].
  destruct (N.eqb_spec c 43) as [-> | H43].
  { apply has_digit_tail. eapply Hp. exact H. }
  destruct (N.eqb_spec c 45) as [-> | H45].
  { apply has_digit_tail. cbn in H.
    destruct (parse_digits false 0 t) as [w|] eqn:E; [|discriminate].
    eapply Hp. exact E. }
  destruct c as [|p]; [eapply Hp; exact H|].
  do 6 (destruct p as [p|p|]; try (eapply Hp; exact H)); congruence.
Qed.

Lemma has_digit_filter (f : N -> bool) (s : str) :
  has_digit (List.filter f s) = true -> has_digit s = true.
Proof.
  unfold has_digit. rewrite !existsb_exists.
  intros (c & Hin & Hc). apply filter_In in Hin as [Hin _]. now exists c.
Qed.

(** An ASCII mention without any digit makes [filter_id] raise
    [ValueError]. *)
Theorem filter_id_without_digit (mention : str) :
  is_ascii mention = true ->
  has_digit mention = false -> filter_id mention = Raised ValueError.
Proof.
  intros _ H. unfold filter_id. rewrite filter_id_cleaning.
  destruct (py_int _) as [z|] eqn:E; [|reflexivity].
  apply py_int_needs_digit, has_digit_filter in E. congruence.
Qed.

Lemma filter_id_without_digit_witness :
  is_ascii (lit "<@!>") = true
  /\ has_digit (lit "<@!>") = false /\ filter_id (lit "<@!>") = Raised ValueError.
Proof.
  split; [reflexivity|]. split; [reflexivity|].
  apply filter_id_without_digit; reflexivity.
Defined.

End MentionFacts.

Section SplitFacts.
Import Utils Mentions.

Lemma count_cons (c x : N) (s : str) :
  count c (x :: s) = (if N.eqb x c then 1 else 0) + count c s.
Proof.
  unfold count. rewrite filter_cons.
  destruct (decide (N.eqb x c = true)) as [E | E].
  - rewrite E. reflexivity.
  - apply not_true_is_false in E. rewrite E. reflexivity.
Qed.

Lemma count_app (c : N) (a b : str) : count c (a ++ b) = count c a + count c b.
Proof.
  induction a as [|x a IH]; [reflexivity|].
  cbn [app]. rewrite !count_cons, IH. lia.
Qed.

Lemma split_not_nil (c : N) (s : str) : split c s <> [].
Proof.
  induction s as [|x s IH]; [discriminate|]. cbn [split].
  destruct (N.eqb x c); [discriminate|]. destruct (split c s); discriminate.
Qed.

Lemma split_length (c : N) (s : str) : length (split c s) = S (count c s).
Proof.
  induction s as [|x s IH]; [reflexivity|].
  rewrite count_cons. cbn [split].
  destruct (N.eqb x c); [cbn [length]; rewrite IH; lia|].
  pose proof (split_not_nil c s) as Hn.
  destruct (split c s); [congruence|]. cbn [length] in *. lia.
Qed.

Lemma split_without (c : N) (s : str) : count c s = 0 -> split c s = [s].
Proof.
  induction s as [|x s IH]; [reflexivity|].
  rewrite count_cons. cbn [split].
  destruct (N.eqb x c); [intros; lia|]. intros H. rewrite IH by lia. reflexivity.
Qed.

Lemma last_part_cons (w : str) (ws : list str) :
  ws <> [] -> last_part (w :: ws) = last_part ws.
Proof. destruct ws; [congruence | reflexivity]. Qed.

Lemma last_part_split_app (c : N) (a t : str) :
  last_part (split c (a ++ c :: t)) = last_part (split c t).
Proof.
  induction a as [|x a IH].
  - cbn [app split]. rewrite N.eqb_refl.
    apply last_part_cons, split_not_nil.
  - cbn [app split].
    pose proof (split_length c (a ++ c :: t)) as Hl.
    rewrite count_app, count_cons, N.eqb_refl in Hl.
    destruct (N.eqb x c).
    + rewrite last_part_cons by apply split_not_nil. exact IH.
    + destruct (split c (a ++ c :: t)) as [|w [|w' ws]]; cbn [length] in Hl; try lia.
      rewrite <- IH. reflexivity.
Qed.

Lemma drop_last_snoc (s : str) (x : N) : drop_last (s ++ [x]) = s.
Proof.
  unfold drop_last. rewrite length_app. cbn [length].
  replace (length s + 1 - 1) with (length s) by lia.
  now rewrite take_app_length.
Qed.

Lemma int_text_colons (z : Z) : count COLON (py_str (PInt z) ++ lit ">") = 0.
Proof.
  rewrite count_app. change (count COLON (lit ">")) with 0. rewrite Nat.add_0_r.
  pose proof (py_str_int_chars z) as H.
  induction H as [|c s Hc _ IH]; [reflexivity|].
  rewrite count_cons, IH.
  destruct (N.eqb_spec c COLON) as [-> | _]; [|reflexivity].
  unfold COLON in Hc. lia.
Qed.

(** [filter_emoji_id] reads the id out of the text form [<:name:id>] of a
    custom emoji, whatever the name, and out of the bare text of an id. *)
Theorem filter_emoji_id_reads (name : str) (id : Z) :
  filter_emoji_id (emoji_text name id) = Done (PInt id)
  /\ filter_emoji_id (py_str (PInt id)) = Done (PInt id).
Proof.
  split.
  - unfold filter_emoji_id, emoji_text.
    assert (Hc : 2 <= count COLON (lit "<:" ++ name ++ [COLON] ++ py_str (PInt id) ++ lit ">")).
    { rewrite !count_app. change (count COLON (lit "<:")) with 1.
      change (count COLON [COLON]) with 1. lia. }
    apply Nat.leb_le in Hc. rewrite Hc.
    replace (lit "<:" ++ name ++ [COLON] ++ py_str (PInt id) ++ lit ">")
      with ((lit "<:" ++ name) ++ COLON :: (py_str (PInt id) ++ lit ">"))
      by (rewrite <- !app_assoc; reflexivity).
    rewrite last_part_split_app, (split_without _ _ (int_text_colons id)).
    change (last_part [py_str (PInt id) ++ lit ">"])
      with (py_str (PInt id) ++ [62%N]).
    rewrite drop_last_snoc, py_int_py_str. reflexivity.
  - unfold filter_emoji_id.
    pose proof (int_text_colons id) as H0. rewrite count_app in H0.
    replace (2 <=? count COLON (py_str (PInt id))) with false
      by (symmetry; apply Nat.leb_gt; lia).
    now rewrite py_int_py_str.
Qed.

End SplitFacts.

(** ** What [split_long_message] keeps of the message *)

Section SplitMessageFacts.
Import Utils.

Lemma split_concat (c : N) (m : str) :
  concat (map (fun l => l ++ [c]) (split c m)) = m ++ [c].
Proof.
  induction m as [|x m IH]; [reflexivity|]. cbn [split].
  destruct (N.eqb_spec x c) as [-> | _].
  - cbn [map concat app]. now rewrite IH.
  - pose proof (split_not_nil c m) as Hn.
    destruct (split c m) as [|w ws]; [congruence|].
    cbn [map concat app] in *. now rewrite IH.
Qed.

Lemma join_snoc (sep : str) (out : list str) (x y : str) :
  join sep (out ++ [x] ++ [y]) = join sep (out ++ [x]) ++ sep ++ y.
Proof.
  induction out as [|o out IH]; [reflexivity|].
  cbn [app]. destruct out as [|o' out].
  - cbn [app join]. now rewrite <- !app_assoc.
  - cbn [app join] in *. rewrite IH. now rewrite <- !app_assoc.
Qed.

Lemma join_snoc_app (sep : str) (out : list str) (x y : str) :
  join sep (out ++ [x ++ y]) = join sep (out ++ [x]) ++ y.
Proof.
  induction out as [|o out IH]; [reflexivity|].
  cbn [app]. destruct out as [|o' out].
  - cbn [app join]. now rewrite <- !app_assoc.
  - cbn [app join] in *. rewrite IH. now rewrite <- !app_assoc.
Qed.

Lemma split_loop_keeps (lines : list str) :
  forall (temp : str) (out : list str),
    (exists t, temp = t ++ [NL]) ->
    (exists t, snd (split_loop lines temp out) = t ++ [NL])
    /\ join [NL] (fst (split_loop lines temp out) ++ [snd (split_loop lines temp out)])
       = join [NL] (out ++ [temp]) ++ concat (map with_newline lines).
Proof.
  induction lines as [|line lines IH]; intros temp out [t Ht].
  - cbn [split_loop fst snd map concat]. rewrite app_nil_r. eauto.
  - cbn [split_loop].
    destruct (2000 <? length temp + length line + 1).
    + destruct (IH (line ++ [NL]) (out ++ [drop_last temp])) as [Hs Hj]; [eauto|].
      split; [exact Hs|]. rewrite Hj. cbn [map concat].
      subst temp. rewrite drop_last_snoc.
      rewrite <- (app_assoc out), join_snoc, join_snoc_app.
      now rewrite <- !app_assoc.
    + destruct (IH (temp ++ line ++ [NL]) out) as [Hs Hj].
      { exists (temp ++ line). now rewrite <- app_assoc. }
      split; [exact Hs|]. rewrite Hj. cbn [map concat].
      rewrite join_snoc_app. now rewrite <- !app_assoc.
Qed.

(** When the first line has at most 1,999 characters, nothing of the
    message is lost or added but one final newline: the chunks joined by
    newlines are the message followed by a newline. *)
Theorem split_long_message_keeps (message : str) :
  length (hd [] (split NL message)) <= 1999 ->
  join [NL] (split_long_message message) = message ++ [NL].
Proof.
  intros Hfirst. unfold split_long_message.
  rewrite <- (split_concat NL message).
  pose proof (split_not_nil NL message) as Hn.
  destruct (split NL message) as [|line lines]; [congruence|].
  cbn [hd] in Hfirst. cbn [split_loop length].
  replace (2000 <? 0 + length line + 1) with false
    by (symmetry; apply Nat.ltb_ge; lia).
  cbn [app].
  destruct (split_loop_keeps lines (line ++ [NL]) []) as [[t Ht] Hj]; [eauto|].
  destruct (split_loop lines (line ++ [NL]) []) as [out temp].
  cbn [fst snd] in *. subst temp.
  destruct (t ++ [NL]) eqn:E; [now apply app_eq_nil in E as [_ E]|].
  rewrite Hj. reflexivity.
Qed.

Lemma split_long_message_keeps_witness :
  length (hd [] (split NL (lit "ab" ++ [NL] ++ lit "cd"))) <= 1999
  /\ join [NL] (split_long_message (lit "ab" ++ [NL] ++ lit "cd"))
     = (lit "ab" ++ [NL] ++ lit "cd") ++ [NL].
Proof.
  split; [apply Nat.leb_le; reflexivity|].
  apply split_long_message_keeps. apply Nat.leb_le. reflexivity.
Defined.

Lemma split_loop_fits (lines : list str) :
  forall (temp : str) (out : list str),
    length temp + length (concat (map with_newline lines)) <= 2000 ->
    split_loop lines temp out = (out, temp ++ concat (map with_newline lines)).
Proof.
  induction lines as [|line lines IH]; intros temp out H.
  - cbn. now rewrite app_nil_r.
  - cbn [map concat] in *. rewrite !length_app in H. cbn [length] in H.
    cbn [split_loop].
    replace (2000 <? length temp + length line + 1) with false
      by (symmetry; apply Nat.ltb_ge; lia).
    rewrite IH by (rewrite !length_app; cbn [length]; lia).
    now rewrite <- !app_assoc.
Qed.

(** A message of at most 1,999 characters comes back as one chunk: the
    message with a newline added at its end. *)
Theorem split_long_message_short (message : str) :
  length message <= 1999 ->
  split_long_message message = [message ++ [NL]].
Proof.
  intros H. unfold split_long_message.
  rewrite split_loop_fits
    by (rewrite split_concat, length_app; cbn [length]; lia).
  rewrite split_concat. cbn [app].
  destruct (message ++ [NL]) eqn:E; [now apply app_eq_nil in E as [_ E] | reflexivity].
Qed.

Lemma split_long_message_short_witness :
  length (lit "hello") <= 1999
  /\ split_long_message (lit "hello") = [lit "hello" ++ [NL]].
Proof.
  split; [apply Nat.leb_le; reflexivity|].
  apply split_long_message_short. apply Nat.leb_le. reflexivity.
Defined.

Lemma split_loop_extends (lines : list str) :
  forall (temp : str) (out : list str),
    exists more, fst (split_loop lines temp out) = out ++ more.
Proof.
  induction lines as [|line lines IH]; intros temp out.
  - exists []. cbn. now rewrite app_nil_r.
  - cbn [split_loop]. destruct (2000 <? length temp + length line + 1).
    + destruct (IH (line ++ [NL]) (out ++ [drop_last temp])) as [more Hm].
      exists (drop_last temp :: more). rewrite Hm. now rewrite <- app_assoc.
    + apply IH.
Qed.

(** When the first line has 2,000 characters or more, the first chunk
    returned is the empty string. *)
Theorem split_long_message_empty_chunk (message : str) :
  2000 <= length (hd [] (split NL message)) ->
  head (split_long_message message) = Some [].
Proof.
  intros Hfirst. unfold split_long_message.
  pose proof (split_not_nil NL message) as Hn.
  destruct (split NL message) as [|line lines]; [congruence|].
  cbn [hd] in Hfirst. cbn [split_loop length].
  replace (2000 <? 0 + length line + 1) with true
    by (symmetry; apply Nat.ltb_lt; lia).
  destruct (split_loop_extends lines (line ++ [NL]) ([] ++ [drop_last []])) as [more Hm].
  destruct (split_loop lines (line ++ [NL]) ([] ++ [drop_last []])) as [out temp].
  cbn [fst] in Hm. subst out. destruct temp; reflexivity.
Qed.

Lemma split_long_message_empty_chunk_witness :
  2000 <= length (hd [] (split NL (repeat 97%N 2000)))
  /\ head (split_long_message (repeat 97%N 2000)) = Some [].
Proof.
  assert (H : 2000 <= length (hd [] (split NL (repeat 97%N 2000))))
    by (apply Nat.leb_le; vm_compute; reflexivity).
  split; [exact H | apply split_long_message_empty_chunk; exact H].
Defined.

End SplitMessageFacts.

(** ** Normalisation of any text *)

Section NormalizeMore.
Import Normalize.

Lemma span_head (s : str) :
  exists pre rest,
    s = pre ++ rest /\ all_wrapper pre = true
    /\ (forall c, head rest = Some c -> char_in c wrapper_chars = false).
Proof.
  induction s as [|x s (pre & rest & Hs & Hp & Hr)].
  - exists [], []. repeat split. discriminate.
  - destruct (char_in x wrapper_chars) eqn:Hx.
    + exists (x :: pre), rest. subst s. repeat split; [|exact Hr].
      cbn [all_wrapper forallb]. unfold all_wrapper in Hp. now rewrite Hx, Hp.
    + exists [], (x :: s). repeat split. intros c Hc. injection Hc as <-. exact Hx.
Qed.

Lemma all_wrapper_rev (s : str) : all_wrapper s = true -> all_wrapper (rev s) = true.
Proof.
  unfold all_wrapper. rewrite !forallb_forall. intros H c Hc.
  apply H. now apply in_rev.
Qed.

Lemma span_tail (s : str) :
  exists body post,
    s = body ++ post /\ all_wrapper post = true
    /\ (forall c, last body = Some c -> char_in c wrapper_chars = false).
Proof.
  destruct (span_head (rev s)) as (pre & rest & Hs & Hp & Hr).
  exists (rev rest), (rev pre). repeat split.
  - rewrite <- rev_app_distr, <- Hs. symmetry. apply rev_involutive.
  - now apply all_wrapper_rev.
  - intros c Hc. apply Hr. rewrite <- Hc.
    destruct rest as [|x rest]; [reflexivity|].
    cbn [rev head]. now rewrite last_snoc.
Qed.

(** The two loops, for any text: nothing is left of a text that does not
    start with a wrapper character; otherwise both ends are trimmed. *)
Lemma normalize_shape (code : str) :
  exists body,
    normalize code = strip_tag body
    /\ (forall c, last body = Some c -> char_in c wrapper_chars = false)
    /\ (forall c, head code = Some c -> char_in c wrapper_chars = false -> body = []).
Proof.
  destruct (span_head code) as (pre & rest & Hs & Hp & Hr).
  unfold normalize.
  pose proof (strip_head_run rest Hr pre [] [] Hp) as H1.
  cbn [app length] in H1. rewrite <- length_app, <- Hs in H1. rewrite H1.
  destruct pre as [|p pre].
  - exists []. cbn. repeat split; discriminate || reflexivity.
  - destruct (span_tail rest) as (body & post & Hs2 & Hp2 & Hb).
    exists body.
    pose proof (strip_tail_run body Hb post [] rest Hp2) as H2.
    rewrite app_nil_r, <- length_app, <- Hs2 in H2. rewrite H2.
    split; [|split; [exact Hb|]].
    + destruct post; [|reflexivity]. rewrite app_nil_r in Hs2. now subst.
    + intros c Hc Hw. subst code. cbn in Hc. injection Hc as <-.
      cbn [all_wrapper forallb] in Hp. rewrite Hw in Hp. discriminate.
Qed.

(** A text that starts with anything but a space, a backtick or a newline
    is normalised to the empty string: no code is left to run. *)
Theorem normalize_unwrapped (c : N) (rest : str) :
  char_in c wrapper_chars = false -> normalize (c :: rest) = [].
Proof.
  intros Hc. destruct (normalize_shape (c :: rest)) as (body & Hn & _ & Hb).
  rewrite Hn, (Hb c eq_refl Hc). reflexivity.
Qed.

Lemma normalize_unwrapped_witness :
  char_in 112%N wrapper_chars = false /\ normalize (lit "print(1)") = [].
Proof. split; [reflexivity | apply (normalize_unwrapped 112%N); reflexivity]. Defined.

Lemma last_drop (n : nat) (s : str) (c : N) :
  last (drop n s) = Some c -> last s = Some c.
Proof.
  revert s. induction n as [|n IH]; intros s H; [now rewrite drop_0 in H|].
  destruct s as [|x s]; [discriminate|]. cbn [drop] in H.
  apply IH in H. destruct s; [discriminate | exact H].
Qed.

(** The normalised code never ends with a space, a backtick or a
    newline. *)
Theorem normalize_trailing (code : str) (c : N) :
  last (normalize code) = Some c -> char_in c wrapper_chars = false.
Proof.
  destruct (normalize_shape code) as (body & Hn & Hb & _).
  rewrite Hn. unfold strip_tag.
  destruct (startswith py_tag body); intros H; [apply last_drop in H|]; now apply Hb.
Qed.

Lemma normalize_trailing_witness :
  last (normalize fenced_print) = Some 41%N /\ char_in 41%N wrapper_chars = false.
Proof.
  assert (H : last (normalize fenced_print) = Some 41%N) by (vm_compute; reflexivity).
  split; [exact H | exact (normalize_trailing fenced_print 41%N H)].
Defined.

End NormalizeMore.

(** ** The handler when outside calls may raise *)

Section HandlerFaults.
Import Exec.

Variable formatTime : Q -> str.
Variable faults : io_call -> bool.

Ltac step_io :=
  cbn [files sent fst snd];
  rewrite ?lookup_insert_eq;
  match goal with
  | |- context [if faults ?c then _ else _] => destruct (faults c) eqn:?
  | |- context [if (?a <? ?b)%N then _ else _] => destruct (a <? b)%N eqn:?
  end.

Ltac open_io :=
  unfold render, send_image, mbind, io_bind, mret, io_ret, image_save, getsize,
    channel_send_file, sendEmbed, os_remove.

(** What a run of the image hand-off can leave behind. *)
Lemma send_image_cases (start : str) (surface : Surface) (w : World) :
  let r := send_image faults start surface w in
  (files (snd r) = files w
   \/ files (snd r) = <[temp_name start := png_bytes surface]> (files w)
   \/ files (snd r) = delete (temp_name start) (files w))
  /\ (sent (snd r) = sent w \/ sent (snd r) = sent w ++ [image_event start surface])
  /\ (fst r = Done tt -> files (snd r) = delete (temp_name start) (files w)).
Proof.
  cbv zeta. open_io. unfold image_event.
  repeat step_io; cbn [files sent fst snd];
    repeat (rewrite lookup_insert_eq; cbn [files sent fst snd]);
    rewrite ?delete_insert_eq;
    repeat split; try (intros; discriminate); auto.
Qed.

(** Whatever raises, the handler touches no file but its own temporary
    one. *)
Theorem render_frame (start : str) (r : SandboxResult) (w : World) (name : str) :
  name <> temp_name start ->
  files (snd (render formatTime faults start r w)) !! name = files w !! name.
Proof.
  intros Hname.
  assert (Hembed : forall t d w', files (snd (sendEmbed faults t d w')) = files w').
  { intros t d w'. unfold sendEmbed. destruct (faults Embed); reflexivity. }
  unfold render. destruct (exc r) as [e|]; [now rewrite Hembed|].
  destruct (img r) as [surface|].
  - unfold mbind at 1, io_bind at 1.
    pose proof (send_image_cases start surface w) as (Hf & _ & _). cbv zeta in Hf.
    destruct (send_image faults start surface w) as [[[]|e] w'];
      cbn [fst snd] in *; rewrite ?Hembed;
      destruct Hf as [-> | [-> | ->]];
      rewrite ?lookup_insert_ne, ?lookup_delete_ne by congruence; reflexivity.
  - unfold mbind at 1, io_bind at 1, mret, io_ret. now rewrite Hembed.
Qed.

Lemma render_image_eq (start : str) (d : Q) (t : pyval) (surface : Surface) (w : World) :
  render formatTime faults start
    {| duration := d; text := t; img := Some surface; exc := None |} w
  = match send_image faults start surface w with
    | (Done _, w') =>
        sendEmbed faults (returned_title formatTime d) (framed (str_repr t)) w'
    | (Raised e, w') => (Raised e, w')
    end.
Proof. reflexivity. Qed.

(** Whenever the handler returns normally after an image, whatever may
    have been able to raise, the temporary file is gone. *)
Theorem render_done_removes (start : str) (d : Q) (t : pyval) (surface : Surface)
        (w : World) :
  fst (render formatTime faults start
         {| duration := d; text := t; img := Some surface; exc := None |} w) = Done tt ->
  files (snd (render formatTime faults start
                {| duration := d; text := t; img := Some surface; exc := None |} w))
  = delete (temp_name start) (files w).
Proof.
  rewrite render_image_eq.
  pose proof (send_image_cases start surface w) as (_ & _ & Hd). cbv zeta in Hd.
  destruct (send_image faults start surface w) as [[[]|e] w']; cbn [fst snd] in *;
    [|discriminate].
  intros _. unfold sendEmbed. destruct (faults Embed); cbn [snd files]; now apply Hd.
Qed.

(** When the image hand-off raises, the handler raises the same exception
    and the result text is never sent. *)
Theorem render_hand_off_raises (start : str) (d : Q) (t : pyval) (surface : Surface)
        (w : World) (e : str) :
  fst (send_image faults start surface w) = Raised e ->
  fst (render formatTime faults start
         {| duration := d; text := t; img := Some surface; exc := None |} w) = Raised e
  /\ List.filter is_text_embed
       (emitted w (render formatTime faults start
                     {| duration := d; text := t; img := Some surface; exc := None |} w))
     = [].
Proof.
  rewrite render_image_eq.
  pose proof (send_image_cases start surface w) as (_ & Hs & _). cbv zeta in Hs.
  destruct (send_image faults start surface w) as [[[]|e'] w']; cbn [fst snd] in *;
    [discriminate|].
  intros [= ->]. split; [reflexivity|]. unfold emitted. cbn [snd].
  destruct Hs as [-> | ->].
  - now rewrite drop_all.
  - rewrite drop_app_length. cbn [List.filter].
    now rewrite (proj1 (image_event_not_text start surface)).
Qed.

End HandlerFaults.

Lemma render_frame_witness :
  lit "notes.txt" <> Exec.temp_name (lit "1.5")
  /\ files (snd failing_send_run) !! lit "notes.txt"
     = files {| files := ∅; sent := [] |} !! lit "notes.txt".
Proof.
  assert (H : lit "notes.txt" <> Exec.temp_name (lit "1.5")) by discriminate.
  split; [exact H|].
  exact (render_frame (fun _ => lit "1 s") send_fails (lit "1.5") _ _ _ H).
Defined.

Lemma render_done_removes_witness :
  fst (Exec.render (fun _ => lit "1 s") no_faults (lit "1.5")
         {| duration := 1; text := PStr (lit "1");
            img := Some {| png_bytes := 100 |}; exc := None |}
         {| files := ∅; sent := [] |}) = Done tt
  /\ files (snd (Exec.render (fun _ => lit "1 s") no_faults (lit "1.5")
                   {| duration := 1; text := PStr (lit "1");
                      img := Some {| png_bytes := 100 |}; exc := None |}
                   {| files := ∅; sent := [] |}))
     = delete (Exec.temp_name (lit "1.5")) ∅.
Proof.
  assert (H : fst (Exec.render (fun _ => lit "1 s") no_faults (lit "1.5")
                     {| duration := 1; text := PStr (lit "1");
                        img := Some {| png_bytes := 100 |}; exc := None |}
                     {| files := ∅; sent := [] |}) = Done tt)
    by (rewrite render_success; reflexivity).
  split; [exact H|].
  exact (render_done_removes (fun _ => lit "1 s") no_faults (lit "1.5") 1
           (PStr (lit "1")) {| png_bytes := 100 |} {| files := ∅; sent := [] |} H).
Defined.

Lemma render_hand_off_raises_witness :
  fst (Exec.send_image send_fails (lit "1.5") {| png_bytes := 100 |}
         {| files := ∅; sent := [] |}) = Raised (lit "HTTPException")
  /\ fst failing_send_run = Raised (lit "HTTPException").
Proof.
  assert (H : fst (Exec.send_image send_fails (lit "1.5") {| png_bytes := 100 |}
                     {| files := ∅; sent := [] |}) = Raised (lit "HTTPException"))
    by (vm_compute; reflexivity).
  split; [exact H|].
  exact (proj1 (render_hand_off_raises (fun _ => lit "1 s") send_fails (lit "1.5") 1
                  (PStr (lit "1")) {| png_bytes := 100 |}
                  {| files := ∅; sent := [] |} _ H)).
Defined.


(** ** What reaches the embed *)

Section RenderedText.
Import Exec Utils.

Lemma has3_app_break (a : str) :
  forall (n : nat) (c : N) (t : str),
    N.eqb c BT = false -> has3 n (a ++ c :: t) = has3 n a || has3 0 t.
Proof.
  induction a as [|x a IH]; intros n c t Hc.
  - cbn [app has3]. now rewrite Hc.
  - cbn [app has3]. destruct (N.eqb x BT); rewrite IH by exact Hc;
      [now rewrite orb_assoc | reflexivity].
Qed.

Lemma has3_neutralized (r : str) (s : str) :
  (forall n t, has3 n (r ++ t) = has3 0 t) -> has3 0 (replace fence r s) = false.
Proof.
  intros Hr. apply (has3_replace_bounded r Hr (length s)); [lia | lia |].
  destruct (lead_fence s); auto.
Qed.

Lemma no_fence_of_has3 (s : str) :
  has3 0 s = false -> ~ exists a b, s = a ++ fence ++ b.
Proof.
  intros H Hex. apply contains_substring in Hex.
  apply has3_of_contains with (n := 0) in Hex. congruence.
Qed.

(** The whole error line, name, colon and arguments together, holds no
    run of three backticks. *)
Theorem exception_line_no_fence (e : PyExc) :
  ~ exists a b, exception_line e = a ++ fence ++ b.
Proof.
  apply no_fence_of_has3. unfold exception_line.
  change (lit ": " ++ ?x) with (58%N :: 32%N :: x).
  rewrite has3_app_break by reflexivity.
  rewrite (has3_neutralized repl_exc _ repl_exc_breaks). cbn [orb has3].
  change (N.eqb 32 BT) with false. cbv iota.
  apply (has3_neutralized repl_exc _ repl_exc_breaks).
Qed.

(** The text put into the embed is never empty and holds no run of three
    backticks. *)
Theorem str_repr_safe (t : pyval) :
  str_repr t <> [] /\ ~ exists a b, str_repr t = a ++ fence ++ b.
Proof.
  unfold str_repr.
  pose proof (has3_neutralized repl_text (py_str t) repl_text_breaks) as H.
  destruct (replace fence repl_text (py_str t)) as [|c s].
  - split; [discriminate|]. apply no_fence_of_has3. reflexivity.
  - split; [discriminate|]. now apply no_fence_of_has3.
Qed.

(** [code_block] keeps within any budget of 14 characters or more. *)
Theorem code_block_within (s : str) (max_characters : Z) :
  (14 <= max_characters)%Z ->
  (Z.of_nat (length (code_block s max_characters)) <= max_characters)%Z.
Proof.
  intros Hm. unfold code_block.
  destruct (Z.ltb_spec (max_characters - 7)
                       (Z.of_nat (length (replace fence repl_block s)))).
  - rewrite !length_app.
    pose proof (slice_to_length (replace fence repl_block s)
                  (max_characters - 7 - 7) ltac:(lia)).
    cbn [length lit map list_ascii_of_string]. lia.
  - rewrite !length_app.
    pose proof (slice_to_length (replace fence repl_block s)
                  (max_characters - 7) ltac:(lia)).
    cbn [length lit map list_ascii_of_string]. lia.
Qed.

Lemma code_block_within_witness :
  (14 <= 20)%Z
  /\ (Z.of_nat (length (code_block (lit "a rather long line of text") 20)) <= 20)%Z.
Proof. split; [lia | apply code_block_within; lia]. Defined.

(** At or below zero the bar is all empty glyphs. *)
Theorem progress_bar_at_zero (pct : Q) (full_bar empty_bar : str) (divisions : Z) :
  (pct <= 0)%Q ->
  progress_bar pct full_bar empty_bar divisions = str_mul empty_bar divisions.
Proof.
  intros H. unfold progress_bar.
  assert (E : int_of_Q (inject_Z divisions
                        * (if Qlt_le_dec pct 0 then 0
                           else if Qlt_le_dec 1 pct then 1 else pct)) = 0%Z).
  { destruct (Qlt_le_dec pct 0) as [_ | H0].
    - unfold int_of_Q. cbn. rewrite Z.mul_0_r. reflexivity.
    - destruct (Qlt_le_dec 1 pct) as [H1 | _];
        destruct pct as [n D]; unfold Qle, Qlt in *; cbn in *; [lia|].
      assert (n = 0%Z) by lia. subst n.
      unfold int_of_Q. cbn. rewrite Z.mul_0_r. reflexivity. }
  rewrite E. cbn [str_mul Z.to_nat repeat concat app]. now rewrite Z.sub_0_r.
Qed.

Lemma progress_bar_at_zero_witness :
  (-3 # 2 <= 0)%Q
  /\ progress_bar (-3 # 2) full_bar_default empty_bar_default 4
     = str_mul empty_bar_default 4.
Proof. split; [discriminate | apply progress_bar_at_zero; discriminate]. Defined.

(** Above one the bar is all full glyphs: [pct] is replaced by the
    integer 1. *)
Theorem progress_bar_above_one (pct : Q) (full_bar empty_bar : str) (divisions : Z) :
  (1 < pct)%Q ->
  progress_bar pct full_bar empty_bar divisions = str_mul full_bar divisions.
Proof.
  intros H. unfold progress_bar.
  assert (E : int_of_Q (inject_Z divisions
                        * (if Qlt_le_dec pct 0 then 0
                           else if Qlt_le_dec 1 pct then 1 else pct)) = divisions).
  { destruct (Qlt_le_dec pct 0) as [H0 | _].
    - destruct pct as [n D]; unfold Qle, Qlt in *; cbn in *; lia.
    - destruct (Qlt_le_dec 1 pct) as [_ | H1].
      + unfold int_of_Q. cbn. rewrite Z.mul_1_r. apply Z.quot_1_r.
      + destruct pct as [n D]; unfold Qle, Qlt in *; cbn in *; lia. }
  rewrite E, Z.sub_diag. cbn [str_mul Z.to_nat repeat concat]. apply app_nil_r.
Qed.

Lemma progress_bar_above_one_witness :
  (1 < 5 # 2)%Q
  /\ progress_bar (5 # 2) full_bar_default empty_bar_default 4
     = str_mul full_bar_default 4.
Proof. split; [reflexivity | apply progress_bar_above_one; reflexivity]. Defined.

End RenderedText.

(** ** Links *)

Section LinkFacts.
Import Formatting.

Lemma rstrip_char_other (x c : N) (s : str) :
  c <> x -> rstrip_char x (s ++ [c]) = s ++ [c].
Proof.
  intros Hc. unfold rstrip_char. rewrite rev_app_distr. cbn [rev app lstrip_char].
  replace (N.eqb c x) with false by (symmetry; now apply N.eqb_neq).
  change (c :: rev s) with (rev [c] ++ rev s).
  now rewrite <- rev_app_distr, rev_involutive.
Qed.

Lemma rstrip_char_same (x : N) (s : str) :
  rstrip_char x (s ++ [x]) = rstrip_char x s.
Proof.
  unfold rstrip_char. rewrite rev_app_distr. cbn [rev app lstrip_char].
  now rewrite N.eqb_refl.
Qed.

Lemma drop_prefix (p t : str) : drop (length p) (p ++ t) = t.
Proof. apply drop_app_length. Qed.

(** A link to a channel or message of the guild, written between angle
    brackets, is cut down to the ids that follow the guild, for the plain
    and for the [www] address alike. *)
Theorem format_discord_link_ids (guild_id : Z) (ids : str) (c : N) :
  last ids = Some c -> c <> 62%N -> c <> 47%N ->
  startswith (link_prefix_www guild_id) ids = false ->
  format_discord_link (lit "<" ++ link_prefix guild_id ++ ids ++ lit ">") guild_id = ids
  /\ format_discord_link (lit "<" ++ link_prefix_www guild_id ++ ids ++ lit ">") guild_id
     = ids.
Proof.
  intros Hlast Hgt Hslash Hwww.
  apply last_Some in Hlast as [ids' ->].
  assert (Htrim : forall p : str,
             rstrip_char 47 (rstrip_char 62 (p ++ (ids' ++ [c]) ++ lit ">"))
             = p ++ ids' ++ [c]).
  { intros p. change (lit ">") with [62%N].
    replace (p ++ (ids' ++ [c]) ++ [62%N]) with ((p ++ ids' ++ [c]) ++ [62%N])
      by (now rewrite <- !app_assoc).
    rewrite rstrip_char_same.
    replace (p ++ ids' ++ [c]) with ((p ++ ids') ++ [c]) by (now rewrite <- app_assoc).
    now rewrite !rstrip_char_other by assumption. }
  unfold format_discord_link. split.
  - change (lstrip_char 60 (lit "<" ++ link_prefix guild_id ++ (ids' ++ [c]) ++ lit ">"))
      with (link_prefix guild_id ++ (ids' ++ [c]) ++ lit ">").
    rewrite Htrim. cbn [fold_left].
    rewrite startswith_app, drop_prefix, Hwww. reflexivity.
  - change (lstrip_char 60 (lit "<" ++ link_prefix_www guild_id ++ (ids' ++ [c]) ++ lit ">"))
      with (link_prefix_www guild_id ++ (ids' ++ [c]) ++ lit ">").
    rewrite Htrim. cbn [fold_left].
    change (startswith (link_prefix guild_id) (link_prefix_www guild_id ++ ids' ++ [c]))
      with false.
    cbv iota. rewrite startswith_app, drop_prefix. reflexivity.
Qed.

Lemma format_discord_link_ids_witness :
  last (lit "123/456") = Some 54%N /\ 54%N <> 62%N /\ 54%N <> 47%N
  /\ startswith (link_prefix_www 77) (lit "123/456") = false
  /\ format_discord_link (lit "<" ++ link_prefix 77 ++ lit "123/456" ++ lit ">") 77
     = lit "123/456".
Proof.
  repeat (split; [reflexivity || discriminate|]).
  apply (format_discord_link_ids 77 (lit "123/456") 54%N);
    reflexivity || discriminate.
Defined.

End LinkFacts.

(** ** The two outcomes, and the temporary file *)

Section HandlerOutcomes.
Import Exec.

Variable formatTime : Q -> str.

Lemma render_ext (f g : io_call -> bool) (start : str) (r : SandboxResult) (w : World) :
  (forall c, f c = g c) ->
  render formatTime f start r w = render formatTime g start r w.
Proof.
  intros H.
  unfold render, send_image, mbind, io_bind, mret, io_ret, image_save, getsize,
    channel_send_file, sendEmbed, os_remove.
  rewrite (H Save), (H Getsize), (H Send), (H Embed), (H Remove). reflexivity.
Qed.

Lemma emitted_same (w : World) (o : outcome unit) (w' : World) :
  sent w' = sent w -> emitted w (o, w') = [].
Proof. intros H. unfold emitted. cbn [snd]. rewrite H. apply drop_all. Qed.

Lemma emitted_more (w : World) (o : outcome unit) (w' : World) (evs : list event) :
  sent w' = sent w ++ evs -> emitted w (o, w') = evs.
Proof. intros H. unfold emitted. cbn [snd]. rewrite H. apply drop_app_length. Qed.

Lemma sendEmbed_cases (faults : io_call -> bool) (title body : str) (w : World) :
  sendEmbed faults title body w = (Raised (lit "HTTPException"), w)
  \/ sendEmbed faults title body w
     = (Done tt, {| files := files w; sent := sent w ++ [SendEmbed title body] |}).
Proof. unfold sendEmbed. destruct (faults Embed); auto. Qed.

(** Whatever raises, the two outcomes never mix. *)
Lemma render_never_both (faults : io_call -> bool) (start : str)
      (r : SandboxResult) (w : World) :
  match exc r with
  | None =>
      List.filter is_exception_embed (emitted w (render formatTime faults start r w)) = []
  | Some _ =>
      List.filter is_text_embed (emitted w (render formatTime faults start r w)) = []
      /\ List.filter is_file (emitted w (render formatTime faults start r w)) = []
  end.
Proof.
  destruct r as [d t i [e|]]; cbn [exc].
  - unfold render. cbn [exc].
    destruct (sendEmbed_cases faults exception_title (framed (exception_line e)) w)
      as [-> | ->].
    + now rewrite emitted_same.
    + rewrite (emitted_more _ _ _ [SendEmbed exception_title (framed (exception_line e))])
        by reflexivity.
      split; reflexivity.
  - destruct i as [surface|].
    + rewrite render_image_eq.
      pose proof (send_image_cases faults start surface w) as (_ & Hs & _).
      cbv zeta in Hs.
      destruct (send_image faults start surface w) as [[[]|e] w']; cbn [fst snd] in Hs.
      * destruct (sendEmbed_cases faults (returned_title formatTime d)
                    (framed (str_repr t)) w') as [-> | ->];
          destruct Hs as [Hs | Hs].
        -- now rewrite emitted_same.
        -- rewrite (emitted_more _ _ _ [image_event start surface]) by exact Hs.
           cbn [List.filter].
           now rewrite (proj2 (image_event_not_text start surface)).
        -- rewrite (emitted_more _ _ _
                      [SendEmbed (returned_title formatTime d) (framed (str_repr t))])
             by (cbn [sent]; now rewrite Hs).
           reflexivity.
        -- rewrite (emitted_more _ _ _
                      ([image_event start surface]
                       ++ [SendEmbed (returned_title formatTime d) (framed (str_repr t))]))
             by (cbn [sent]; rewrite Hs; now rewrite <- app_assoc).
           cbn [app List.filter].
           rewrite (proj2 (image_event_not_text start surface)). reflexivity.
      * destruct Hs as [Hs | Hs].
        -- now rewrite emitted_same.
        -- rewrite (emitted_more _ _ _ [image_event start surface]) by exact Hs.
           cbn [List.filter].
           now rewrite (proj2 (image_event_not_text start surface)).
    + unfold render. cbn [exc img duration text].
      unfold mbind, io_bind, mret, io_ret.
      destruct (sendEmbed_cases faults (returned_title formatTime d)
                  (framed (str_repr t)) w) as [-> | ->].
      * now rewrite emitted_same.
      * rewrite (emitted_more _ _ _
                   [SendEmbed (returned_title formatTime d) (framed (str_repr t))])
          by reflexivity.
        reflexivity.
Qed.

(** C2 (amended): the two outcomes never mix, whatever raises: without an
    exception no exception line is sent, with one no text and no file.
    In a run where no outside call raises exactly one of them is
    rendered: without an exception the text embed, after the image file
    when there is an image under the ceiling and after the "Image cannot
    be sent" notice when the image is too large; with an exception the
    exception line and nothing else. *)
Theorem exec_renders_one_of_two (faults : io_call -> bool) (start : str)
        (r : SandboxResult) (w : World) :
  match exc r with
  | None =>
      List.filter is_exception_embed (emitted w (render formatTime faults start r w)) = []
  | Some _ =>
      List.filter is_text_embed (emitted w (render formatTime faults start r w)) = []
      /\ List.filter is_file (emitted w (render formatTime faults start r w)) = []
  end
  /\ ((forall c, faults c = false) ->
      fst (render formatTime faults start r w) = Done tt
      /\ emitted w (render formatTime faults start r w)
         = match exc r with
           | None =>
               match img r with
               | Some surface =>
                   [if (png_bytes surface <? ceiling)%N
                    then SendFile (temp_name start)
                    else SendEmbed too_large_title too_large_body]
               | None => []
               end
               ++ [SendEmbed (returned_title formatTime (duration r))
                             (framed (str_repr (text r)))]
           | Some e => [SendEmbed exception_title (framed (exception_line e))]
           end).
Proof.
  split; [apply render_never_both|].
  intros Hq. rewrite (render_ext faults no_faults) by exact Hq.
  destruct r as [d t i [e|]]; cbn [exc duration text img].
  - rewrite render_failure, emitted_app. split; reflexivity.
  - rewrite render_success, emitted_app. split; [reflexivity|].
    destruct i; reflexivity.
Qed.

(** C7 (amended): the temporary file is named after the start time of
    the invocation, so that two invocations with different start times
    never share a name; and in a run where no outside call raises it is
    gone when the handler returns, with no other file touched. *)
Theorem temp_file_removed_unless_raised (faults : io_call -> bool) (start : str)
        (d : Q) (t : pyval) (surface : Surface) (w : World) :
  (forall other, temp_name other = temp_name start -> other = start)
  /\ ((forall c, faults c = false) ->
      fst (render formatTime faults start
             {| duration := d; text := t; img := Some surface; exc := None |} w)
      = Done tt
      /\ files (snd (render formatTime faults start
                       {| duration := d; text := t; img := Some surface; exc := None |} w))
         = delete (temp_name start) (files w)
      /\ files (snd (render formatTime faults start
                       {| duration := d; text := t; img := Some surface; exc := None |} w))
         !! temp_name start = None).
Proof.
  split.
  - unfold temp_name. intros other H.
    apply app_inv_head in H. now apply app_inv_tail in H.
  - intros Hq. rewrite (render_ext faults no_faults) by exact Hq.
    rewrite render_success. cbn [fst snd files]. repeat split.
    apply lookup_delete_eq.
Qed.

End HandlerOutcomes.

Lemma exec_renders_one_of_two_witness :
  (forall c, no_faults c = false)
  /\ Exec.emitted {| files := ∅; sent := [] |} oversize_run
     = [SendEmbed Exec.too_large_title Exec.too_large_body;
        SendEmbed (Exec.returned_title (fun _ => lit "1 s") 1)
                  (Exec.framed (Exec.str_repr (PStr (lit "1"))))].
Proof.
  assert (H : forall c, no_faults c = false) by reflexivity.
  split; [exact H|].
  exact (proj2 (proj2 (exec_renders_one_of_two (fun _ => lit "1 s") no_faults (lit "1.5")
                         {| duration := 1; text := PStr (lit "1");
                            img := Some {| png_bytes := 5242880 |}; exc := None |}
                         {| files := ∅; sent := [] |}) H)).
Defined.

(** C2, as stated, fails: when [msg.channel.send] raises, a result
    without exception renders nothing at all, neither the text nor an
    exception line; and an image of 5 MiB is not rendered although it is
    present. *)
Lemma nothing_rendered_when_send_raises :
  Exec.emitted {| files := ∅; sent := [] |} failing_send_run = []
  /\ List.filter Exec.is_file (Exec.emitted {| files := ∅; sent := [] |} oversize_run) = [].
Proof. split; vm_compute; reflexivity. Qed.

Lemma temp_file_removed_unless_raised_witness :
  (forall c, no_faults c = false)
  /\ fst oversize_run = Done tt
  /\ files (snd oversize_run) !! Exec.temp_name (lit "1.5") = None.
Proof.
  assert (H : forall c, no_faults c = false) by reflexivity.
  split; [exact H|].
  pose proof (proj2 (temp_file_removed_unless_raised (fun _ => lit "1 s") no_faults
                       (lit "1.5") 1 (PStr (lit "1")) {| png_bytes := 5242880 |}
                       {| files := ∅; sent := [] |}) H) as (H1 & _ & H3).
  split; [exact H1 | exact H3].
Defined.
